(** * Scheduled-post publishing pipeline

  A shallow embedding of [src/utils/jobQueue.js] (the scheduler facade with
  its durable Bull/Redis backend and its in-memory fallback), of the REST
  controller [src/controllers/scheduled.js] and of the two scheduling
  mutations of [src/graphql/resolvers.js].

  Module-level variables of [jobQueue.js] become the fields of [State];
  the pending [setTimeout] callbacks and the callbacks suspended at
  [await Post.createPost(...)] are part of that state, and the calls made
  to the Post collaborator are recorded in a log.  Every function takes
  the state and returns the new one next to its result. *)

From Stdlib Require Import ZArith NArith String List Bool Lia.
From stdpp Require Import base decidable option list gmap strings fin_maps pretty.

Local Open Scope string_scope.

(** ** JavaScript dates and the numbers obtained from them *)

Module Js.

(** A number produced by date arithmetic: an integral count of
    milliseconds, or [NaN]. *)
Inductive Num : Type :=
| Finite (z : Z)
| NaN.

(** A [Date] object: a time value in milliseconds since the epoch, or
    the Invalid Date. *)
Inductive Date : Type :=
| ValidDate (ms : Z)
| InvalidDate.

Definition MAX_TIME : Z := 8640000000000000.

(** [new Date(ms)] for an integral [ms]: the TimeClip of ECMAScript. *)
Definition TimeClip (ms : Z) : Date :=
  if (Z.abs ms <=? MAX_TIME)%Z then ValidDate ms else InvalidDate.

(** [new Date(n)] for a number. *)
Definition ofNum (n : Num) : Date :=
  match n with
  | Finite z => TimeClip z
  | NaN => InvalidDate
  end.

(** [d.getTime()], also the number a date converts to in [-], [<=], [>]. *)
Definition getTime (d : Date) : Num :=
  match d with
  | ValidDate ms => Finite ms
  | InvalidDate => NaN
  end.

Definition sub (a b : Num) : Num :=
  match a, b with
  | Finite x, Finite y => Finite (x - y)
  | _, _ => NaN
  end.

Definition plus (a b : Num) : Num :=
  match a, b with
  | Finite x, Finite y => Finite (x + y)
  | _, _ => NaN
  end.

(** Comparisons: every comparison with [NaN] is [false]. *)
Definition le (a b : Num) : bool :=
  match a, b with
  | Finite x, Finite y => (x <=? y)%Z
  | _, _ => false
  end.

Definition gt (a b : Num) : bool :=
  match a, b with
  | Finite x, Finite y => (y <? x)%Z
  | _, _ => false
  end.

Definition date_le (a b : Date) : bool := le (getTime a) (getTime b).
Definition date_gt (a b : Date) : bool := gt (getTime a) (getTime b).

(** [n++] on a number holding a non-negative integer: exact below [2^53],
    where [n + 1] rounds back to [n]. *)
Definition MAX_EXACT : N := 9007199254740992.

Definition incr (n : N) : N :=
  if (n <? MAX_EXACT)%N then (n + 1)%N else n.

(** A [scheduledTime] as it arrives in a request: absent ([undefined]),
    [null], a number, or a string. *)
Inductive Value : Type :=
| VAbsent
| VNull
| VNumber (n : Z)
| VString (s : string).

(** [!v] is [false]. *)
Definition truthy (v : Value) : bool :=
  match v with
  | VAbsent => false
  | VNull => false
  | VNumber n => negb (n =? 0)%Z
  | VString s => negb (String.eqb s EmptyString)
  end.

(** [new Date(v)]; [parse] is [Date.parse].  [new Date(undefined)] is the
    Invalid Date and [new Date(null)] the epoch. *)
Definition newDate (parse : string -> Num) (v : Value) : Date :=
  match v with
  | VAbsent => InvalidDate
  | VNull => ValidDate 0
  | VNumber n => TimeClip n
  | VString s => ofNum (parse s)
  end.

(** An [Error] object; only its [message] is ever read. *)
Record Error : Type := mkError { message : string }.

(** Completion of a call: it returns, or it throws. *)
Inductive Outcome (A : Type) : Type :=
| Returns (a : A)
| Throws (e : Error).

Arguments Returns {A} a.
Arguments Throws {A} e.

(** [const x = await e; ...] inside a [try] whose [catch] rethrows: the
    rest runs on the value of [e], and a rejection of [e] is the outcome of
    the whole. *)
Definition await {A B : Type} (e : Outcome A) (rest : A -> Outcome B) : Outcome B :=
  match e with
  | Returns a => rest a
  | Throws err => Throws err
  end.

End Js.

Import Js.

(** ** Data model *)

Inductive Status : Type :=
| Scheduled
| Processing
| Completed
| Failed
| Cancelled.

#[global] Instance Status_eq_dec : EqDecision Status.
Proof. solve_decision. Defined.

(** The payload handed to post creation.  Both callers build [{ content }]. *)
Record PostData : Type := mkPostData { content : string }.

(** An entry of [inMemoryJobs] ([jobData] in [schedulePost]); [job_error] is
    the [error] property, absent until the timer callback sets it. *)
Record Job : Type := mkJob {
  job_id : string;
  job_postData : PostData;
  job_userId : Z;
  job_scheduledTime : Date;
  job_status : Status;
  job_createdAt : Date;
  job_error : option string
}.

(** The argument [{ ...postData, user_id: userId }] of [Post.createPost],
    tagged with the identifier of the job on whose behalf the call is made. *)
Record PostCall : Type := mkPostCall {
  call_jobId : string;
  call_postData : PostData;
  call_user_id : Z
}.

(** The closure passed to [setTimeout]: the variables it captures, and the
    delay it was armed with.  When an armed timer fires is left to the
    run. *)
Record Timer : Type := mkTimer {
  timer_jobId : string;
  timer_postData : PostData;
  timer_userId : Z;
  timer_delay : Num
}.

(** ** The durable backend (Bull), as the interface the facade uses *)

Module Bull.

(** What the facade reads of a Bull job: [job.id], [job.data],
    [job.opts.delay], [job.processedOn] (undefined until a worker picks
    the job up) and [job.timestamp]. *)
Record Job : Type := mkJob {
  id : string;
  data_postData : PostData;
  data_userId : Z;
  opts_delay : Num;
  processedOn : option Z;
  timestamp : Z
}.

(** The queue operations called by [jobQueue.js].  The queue state lives
    in Redis; an operation that changes it returns the new state.  Each
    operation is awaited by the facade and may be rejected by the backend
    (connection lost, job locked by a worker); [remove] is [job.remove()],
    and [getJob] answers [None] for [null]. *)
Class Queue (Q : Type) : Type := {
  add : Q -> string -> PostData -> Z -> Num -> string -> Outcome (Q * Job);
  getJob : Q -> string -> Outcome (option Job);
  remove : Q -> Job -> Outcome Q;
  getJobs : Q -> list string -> Outcome (list Job);
  getWaiting : Q -> Outcome (list Job);
  getActive : Q -> Outcome (list Job);
  getCompleted : Q -> Outcome (list Job);
  getFailed : Q -> Outcome (list Job);
  getDelayed : Q -> Outcome (list Job)
}.

End Bull.

(** ** The scheduler facade: [src/utils/jobQueue.js] *)

Module JobQueue.

(** What [schedulePost] returns. *)
Record ScheduleResult : Type := mkScheduleResult {
  sr_jobId : string;
  sr_scheduledTime : Date;
  sr_status : Status;
  sr_message : string
}.

(** What [cancelScheduledPost] returns. *)
Record CancelResult : Type := mkCancelResult {
  cr_jobId : string;
  cr_status : Status;
  cr_message : string
}.

(** An element of the array returned by [getScheduledPosts]. *)
Record JobView : Type := mkJobView {
  jobId : string;
  postData : PostData;
  scheduledTime : Date;
  status : Status;
  createdAt : Date
}.

(** What [getQueueStats] returns. *)
Record Stats : Type := mkStats {
  waiting : nat;
  active : nat;
  completed : nat;
  failed : nat;
  delayed : nat;
  total : nat;
  type : string
}.

Section Facade.

Context {Q : Type} `{!Bull.Queue Q}.

(** The module state.  [initPending] tells that the [initializeQueue()]
    call made at module load is still suspended at its connection probe;
    [timers] are the armed [setTimeout] callbacks, [inFlight] the callbacks
    that have called [Post.createPost] and wait for it to settle, and
    [createPostCalls] the calls received by the Post collaborator, oldest
    first. *)
Record State : Type := mkState {
  initPending : bool;
  isRedisAvailable : bool;
  scheduledPostsQueue : option Q;
  inMemoryJobs : gmap string Job;
  jobIdCounter : N;
  timers : list Timer;
  inFlight : list Timer;
  createPostCalls : list PostCall
}.

(** State at module load: [let scheduledPostsQueue; let isRedisAvailable =
    false; const inMemoryJobs = new Map(); let jobIdCounter = 1;]. *)
Definition initial : State :=
  {| initPending := true;
     isRedisAvailable := false;
     scheduledPostsQueue := None;
     inMemoryJobs := ∅;
     jobIdCounter := 1%N;
     timers := [];
     inFlight := [];
     createPostCalls := [] |}.

Definition set_queue (q : option Q) (st : State) : State :=
  {| initPending := initPending st;
     isRedisAvailable := isRedisAvailable st;
     scheduledPostsQueue := q;
     inMemoryJobs := inMemoryJobs st;
     jobIdCounter := jobIdCounter st;
     timers := timers st;
     inFlight := inFlight st;
     createPostCalls := createPostCalls st |}.

Definition set_jobs (m : gmap string Job) (st : State) : State :=
  {| initPending := initPending st;
     isRedisAvailable := isRedisAvailable st;
     scheduledPostsQueue := scheduledPostsQueue st;
     inMemoryJobs := m;
     jobIdCounter := jobIdCounter st;
     timers := timers st;
     inFlight := inFlight st;
     createPostCalls := createPostCalls st |}.

(** How the suspended [initializeQueue()] resumes: the probe
    [testRedisConnection()] answers [false]; or it answers [true] and the
    queue is constructed and its processor registered; or it answers [true]
    and [new Queue(...)] throws; or the queue is constructed and
    [.process(...)] throws. *)
Inductive InitOutcome : Type :=
| ProbeFailed
| QueueReady (q : Q)
| ConstructorThrows
| ProcessThrows (q : Q).

Definition initializeQueue (st : State) (o : InitOutcome) : State :=
  let finish (avail : bool) (q : option Q) :=
    {| initPending := false;
       isRedisAvailable := avail;
       scheduledPostsQueue := q;
       inMemoryJobs := inMemoryJobs st;
       jobIdCounter := jobIdCounter st;
       timers := timers st;
       inFlight := inFlight st;
       createPostCalls := createPostCalls st |} in
  match o with
  | ProbeFailed => finish false (scheduledPostsQueue st)
  | QueueReady q => finish true (Some q)
  | ConstructorThrows => finish false (scheduledPostsQueue st)
  | ProcessThrows q => finish false (Some q)
  end.

(** The test [isRedisAvailable && scheduledPostsQueue] shared by the four
    operations: the queue to use when the durable backend is active. *)
Definition durable (st : State) : option Q :=
  if isRedisAvailable st then scheduledPostsQueue st else None.

Definition memoryJobId (n : N) : string := "memory-job-" ++ pretty n.

Definition redisJobId (userId : Z) (now : Z) : string :=
  "scheduled-post-" ++ pretty userId ++ "-" ++ pretty now.

(** [schedulePost(postData, userId, scheduledTime)].  [now] is the clock
    read by [new Date()] on entry, [now'] the later reading ([Date.now()]
    in the job identifier of the durable branch, [createdAt: new Date()] in
    the fallback branch). *)
Definition schedulePost (st : State) (now now' : Z)
    (postData : PostData) (userId : Z) (scheduledTime : Date)
  : Outcome ScheduleResult * State :=
  let delay := sub (getTime scheduledTime) (Finite now) in
  if le delay (Finite 0) then
    (Throws (mkError "Scheduled time must be in the future"), st)
  else
    match durable st with
    | Some q =>
        match Bull.add q "createPost" postData userId delay
                (redisJobId userId now') with
        | Returns (q', job) =>
            (Returns {| sr_jobId := Bull.id job;
                        sr_scheduledTime := scheduledTime;
                        sr_status := Scheduled;
                        sr_message := "Post scheduled successfully" |},
             set_queue (Some q') st)
        | Throws err => (Throws err, st)
        end
    | None =>
        let jobId := memoryJobId (jobIdCounter st) in
        let jobData :=
          {| job_id := jobId;
             job_postData := postData;
             job_userId := userId;
             job_scheduledTime := scheduledTime;
             job_status := Scheduled;
             job_createdAt := ValidDate now';
             job_error := None |} in
        (Returns {| sr_jobId := jobId;
                    sr_scheduledTime := scheduledTime;
                    sr_status := Scheduled;
                    sr_message := "Post scheduled successfully (in-memory)" |},
         {| initPending := initPending st;
            isRedisAvailable := isRedisAvailable st;
            scheduledPostsQueue := scheduledPostsQueue st;
            inMemoryJobs := <[jobId := jobData]> (inMemoryJobs st);
            jobIdCounter := incr (jobIdCounter st);
            timers := timers st ++ [mkTimer jobId postData userId delay];
            inFlight := inFlight st;
            createPostCalls := createPostCalls st |})
    end.

Definition notFound : Error := mkError "Scheduled post not found".

(** [cancelScheduledPost(jobId)]. *)
Definition cancelScheduledPost (st : State) (jobId : string)
  : Outcome CancelResult * State :=
  match durable st, String.prefix "memory-job-" jobId with
  | Some q, false =>
      match Bull.getJob q jobId with
      | Throws e => (Throws e, st)
      | Returns None => (Throws notFound, st)
      | Returns (Some job) =>
          match Bull.remove q job with
          | Throws e => (Throws e, st)
          | Returns q' =>
              (Returns {| cr_jobId := jobId;
                          cr_status := Cancelled;
                          cr_message := "Scheduled post cancelled successfully" |},
               set_queue (Some q') st)
          end
      end
  | _, _ =>
      match inMemoryJobs st !! jobId with
      | None => (Throws notFound, st)
      | Some _ =>
          (Returns {| cr_jobId := jobId;
                      cr_status := Cancelled;
                      cr_message := "Scheduled post cancelled successfully (in-memory)" |},
           set_jobs (delete jobId (inMemoryJobs st)) st)
      end
  end.

(** [Array.from(inMemoryJobs.values())].  The entries are enumerated in
    the order of the finite map, not in insertion order: the order of the
    listing is not modelled. *)
Definition values (m : gmap string Job) : list Job := (map_to_list m).*2.

Definition viewOfJob (job : Job) : JobView :=
  {| jobId := job_id job;
     postData := job_postData job;
     scheduledTime := job_scheduledTime job;
     status := job_status job;
     createdAt := job_createdAt job |}.

(** The view of a Bull job: [scheduledTime] is
    [new Date(job.processedOn + job.opts.delay)], where [processedOn] may
    be undefined, and [status] tests [job.opts.delay > 0]. *)
Definition viewOfBullJob (job : Bull.Job) : JobView :=
  {| jobId := Bull.id job;
     postData := Bull.data_postData job;
     scheduledTime :=
       ofNum (plus (from_option Finite NaN (Bull.processedOn job))
                   (Bull.opts_delay job));
     status :=
       if gt (Bull.opts_delay job) (Finite 0) then Scheduled else Processing;
     createdAt := TimeClip (Bull.timestamp job) |}.

(** [getScheduledPosts(userId)]. *)
Definition getScheduledPosts (st : State) (userId : Z) : Outcome (list JobView) :=
  match durable st with
  | Some q =>
      await (Bull.getJobs q ["delayed"; "waiting"]) (λ jobs,
      Returns (viewOfBullJob <$>
                 filter (λ job, Bull.data_userId job = userId) jobs))
  | None =>
      Returns (viewOfJob <$>
                 filter (λ job, job_userId job = userId)
                        (values (inMemoryJobs st)))
  end.

(** [getQueueStats()]. *)
Definition getQueueStats (st : State) : Outcome Stats :=
  match durable st with
  | Some q =>
      await (Bull.getWaiting q) (λ waiting,
      await (Bull.getActive q) (λ active,
      await (Bull.getCompleted q) (λ completed,
      await (Bull.getFailed q) (λ failed,
      await (Bull.getDelayed q) (λ delayed,
      Returns
        {| waiting := length waiting;
           active := length active;
           completed := length completed;
           failed := length failed;
           delayed := length delayed;
           total := length waiting + length active + length completed
                    + length failed + length delayed;
           type := "redis" |})))))
  | None =>
      let jobs := values (inMemoryJobs st) in
      let scheduled := length (filter (λ job, job_status job = Scheduled) jobs) in
      let failed := length (filter (λ job, job_status job = Failed) jobs) in
      Returns
        {| waiting := 0;
           active := 0;
           completed := 0;
           failed := failed;
           delayed := scheduled;
           total := length jobs;
           type := "in-memory" |}
  end.

(** *** The timer callback of the fallback branch

    The callback has one suspension point, [await Post.createPost(...)].
    [timerFires] runs it up to there: the [k]-th armed timer is consumed,
    the collaborator is called, and the callback waits in [inFlight].
    [createPostSettles] resumes the [k]-th waiting callback with the
    outcome of that call and runs it to its end. *)

Definition timerFires (st : State) (k : nat) : State :=
  match timers st !! k with
  | None => st
  | Some t =>
      {| initPending := initPending st;
         isRedisAvailable := isRedisAvailable st;
         scheduledPostsQueue := scheduledPostsQueue st;
         inMemoryJobs := inMemoryJobs st;
         jobIdCounter := jobIdCounter st;
         timers := delete k (timers st);
         inFlight := inFlight st ++ [t];
         createPostCalls :=
           createPostCalls st
             ++ [mkPostCall (timer_jobId t) (timer_postData t) (timer_userId t)] |}
  end.

(** The [catch] branch: [const job = inMemoryJobs.get(jobId); if (job) {
    job.status = 'failed'; job.error = err.message; }].  The entry is an
    object held by the map alone, so the two assignments update the map. *)
Definition markFailed (err : Error) (job : Job) : Job :=
  {| job_id := job_id job;
     job_postData := job_postData job;
     job_userId := job_userId job;
     job_scheduledTime := job_scheduledTime job;
     job_status := Failed;
     job_createdAt := job_createdAt job;
     job_error := Some (message err) |}.

Definition settleJobs (jobId : string) (o : Outcome unit) (m : gmap string Job)
  : gmap string Job :=
  match o with
  | Returns _ => delete jobId m
  | Throws err =>
      match m !! jobId with
      | Some job => <[jobId := markFailed err job]> m
      | None => m
      end
  end.

Definition createPostSettles (st : State) (k : nat) (o : Outcome unit) : State :=
  match inFlight st !! k with
  | None => st
  | Some t =>
      {| initPending := initPending st;
         isRedisAvailable := isRedisAvailable st;
         scheduledPostsQueue := scheduledPostsQueue st;
         inMemoryJobs := settleJobs (timer_jobId t) o (inMemoryJobs st);
         jobIdCounter := jobIdCounter st;
         timers := timers st;
         inFlight := delete k (inFlight st);
         createPostCalls := createPostCalls st |}
  end.

(** The processor registered on the durable queue, started by Bull with a
    due job: it calls [Post.createPost({ ...postData, user_id: userId })]
    and touches nothing else of the module state. *)
Definition processJob (st : State) (job : Bull.Job) : State :=
  {| initPending := initPending st;
     isRedisAvailable := isRedisAvailable st;
     scheduledPostsQueue := scheduledPostsQueue st;
     inMemoryJobs := inMemoryJobs st;
     jobIdCounter := jobIdCounter st;
     timers := timers st;
     inFlight := inFlight st;
     createPostCalls :=
       createPostCalls st
         ++ [mkPostCall (Bull.id job) (Bull.data_postData job) (Bull.data_userId job)] |}.

(** *** Runs of the module

    Everything that changes the state, as one event type: the resumption of
    [initializeQueue] (once), the two mutating operations of the facade,
    the two halves of a timer callback, the durable processor, and Redis
    changing the durable queue on its own (workers, retention, retries). *)
Inductive Event : Type :=
| EvInit (o : InitOutcome)
| EvSchedule (now now' : Z) (postData : PostData) (userId : Z) (scheduledTime : Date)
| EvCancel (jobId : string)
| EvTimer (k : nat)
| EvSettle (k : nat) (o : Outcome unit)
| EvProcess (job : Bull.Job)
| EvDurable (q : Q).

Definition step (st : State) (ev : Event) : State :=
  match ev with
  | EvInit o => if initPending st then initializeQueue st o else st
  | EvSchedule now now' postData userId scheduledTime =>
      (schedulePost st now now' postData userId scheduledTime).2
  | EvCancel jobId => (cancelScheduledPost st jobId).2
  | EvTimer k => timerFires st k
  | EvSettle k o => createPostSettles st k o
  | EvProcess job => processJob st job
  | EvDurable q =>
      match scheduledPostsQueue st with
      | Some _ => set_queue (Some q) st
      | None => st
      end
  end.

Definition run (st : State) (evs : list Event) : State := foldl step st evs.

Definition reachable (st : State) : Prop := ∃ evs, st = run initial evs.

End Facade.

Arguments State Q : clear implicits.
Arguments InitOutcome Q : clear implicits.
Arguments Event Q : clear implicits.

End JobQueue.

(** ** The REST controller: [src/controllers/scheduled.js] *)

Module Controller.

Import JobQueue.

(** The JSON bodies sent by the controller. *)
Inductive Body : Type :=
| ErrorBody (error : string) (info : option string)
| ScheduledBody (message : string) (jobId : string) (scheduledTime : Date)
    (status : Status) (postData : PostData)
| CancelledBody (message : string) (data : CancelResult)
| ListBody (message : string) (data : list JobView) (count : nat)
| StatsBody (message : string) (data : Stats).

Record Response : Type := mkResponse { code : nat; body : Body }.

(** [365 * 24 * 60 * 60 * 1000] *)
Definition ONE_YEAR_MS : Z := 365 * 24 * 60 * 60 * 1000.

Section Handlers.

Context {Q : Type} `{!Bull.Queue Q}.

(** [createPostSchema.validate({ content })] of [utils/validation], which
    is not part of the sources at hand: [validate content] is the message
    [error.details[0].message] when validation fails. *)
Variable validate : string -> option string.

(** [Date.parse], implementation-defined for non-ISO strings. *)
Variable parse : string -> Num.

(** [scheduleNewPost(req, res)] for [req.user.id = userId] and
    [req.body = { content, scheduledTime }].  [now] is the controller's
    [new Date()]; [now1] and [now2] are the later readings made inside
    [schedulePost]. *)
Definition scheduleNewPost (st : State Q) (now now1 now2 : Z)
    (userId : Z) (content : string) (scheduledTime : Value)
  : Response * State Q :=
  match validate content with
  | Some details =>
      (mkResponse 400 (ErrorBody "Validation failed" (Some details)), st)
  | None =>
      if negb (truthy scheduledTime) then
        (mkResponse 400 (ErrorBody "Scheduled time is required" None), st)
      else
        let scheduledDate := newDate parse scheduledTime in
        if date_le scheduledDate (ValidDate now) then
          (mkResponse 400 (ErrorBody "Scheduled time must be in the future" None), st)
        else
          let maxScheduleTime := ofNum (plus (Finite now) (Finite ONE_YEAR_MS)) in
          if date_gt scheduledDate maxScheduleTime then
            (mkResponse 400
               (ErrorBody "Cannot schedule posts more than 1 year in advance" None),
             st)
          else
            let postData := mkPostData content in
            match schedulePost st now1 now2 postData userId scheduledDate with
            | (Returns result, st') =>
                (mkResponse 201
                   (ScheduledBody "Post scheduled successfully" (sr_jobId result)
                      scheduledDate (sr_status result) postData),
                 st')
            | (Throws err, st') =>
                (mkResponse 500
                   (ErrorBody "Failed to schedule post" (Some (message err))),
                 st')
            end
  end.

(** [getUserScheduledPosts(req, res)] *)
Definition getUserScheduledPosts (st : State Q) (userId : Z) : Response :=
  match getScheduledPosts st userId with
  | Returns scheduledPosts =>
      mkResponse 200
        (ListBody "Scheduled posts retrieved successfully" scheduledPosts
           (length scheduledPosts))
  | Throws err =>
      mkResponse 500
        (ErrorBody "Failed to retrieve scheduled posts" (Some (message err)))
  end.

(** [cancelScheduledPostById(req, res)] for [req.params.jobId = jobId] and
    [req.user.id = userId].  Nothing is taken to happen to the backend
    between the listing and the cancellation. *)
Definition cancelScheduledPostById (st : State Q) (userId : Z) (jobId : string)
  : Response * State Q :=
  if String.eqb jobId EmptyString then
    (mkResponse 400 (ErrorBody "Job ID is required" None), st)
  else
    match getScheduledPosts st userId with
    | Throws err =>
        (mkResponse 500
           (ErrorBody "Failed to cancel scheduled post" (Some (message err))),
         st)
    | Returns userScheduledPosts =>
        match List.find (λ job, String.eqb (JobQueue.jobId job) jobId)
                userScheduledPosts with
        | None =>
            (mkResponse 404
               (ErrorBody "Scheduled post not found or does not belong to you"
                  None),
             st)
        | Some _ =>
            match cancelScheduledPost st jobId with
            | (Returns result, st') =>
                (mkResponse 200
                   (CancelledBody "Scheduled post cancelled successfully" result),
                 st')
            | (Throws err, st') =>
                (mkResponse 500
                   (ErrorBody "Failed to cancel scheduled post"
                      (Some (message err))),
                 st')
            end
        end
    end.

(** [getScheduleQueueStats(req, res)] *)
Definition getScheduleQueueStats (st : State Q) : Response :=
  match getQueueStats st with
  | Returns stats =>
      mkResponse 200 (StatsBody "Queue statistics retrieved successfully" stats)
  | Throws err =>
      mkResponse 500
        (ErrorBody "Failed to retrieve queue statistics" (Some (message err)))
  end.

End Handlers.

End Controller.

(** ** The GraphQL mutations: [src/graphql/resolvers.js] *)

Module Resolvers.

Section Mutations.

Context {Q : Type} `{!Bull.Queue Q}.

Variable parse : string -> Num.

(** [Mutation.schedulePost(_, { input }, { user })] with
    [input = { content, scheduledTime }]; [user] is [None] when the
    request carries no authenticated user.  [now] is read by the
    comparison, [now1] and [now2] inside [schedulePost], [now3] for the
    [createdAt] of the answer. *)
Definition schedulePost (st : JobQueue.State Q) (now now1 now2 now3 : Z)
    (user : option Z) (content : string) (scheduledTime : Value)
  : Outcome JobQueue.JobView * JobQueue.State Q :=
  match user with
  | None => (Throws (mkError "Not authenticated"), st)
  | Some userId =>
      let scheduledDate := newDate parse scheduledTime in
      if date_le scheduledDate (ValidDate now) then
        (Throws (mkError "Scheduled time must be in the future"), st)
      else
        match JobQueue.schedulePost st now1 now2 (mkPostData content) userId
                scheduledDate with
        | (Returns result, st') =>
            (Returns {| JobQueue.jobId := JobQueue.sr_jobId result;
                        JobQueue.postData := mkPostData content;
                        JobQueue.scheduledTime := scheduledDate;
                        JobQueue.status := JobQueue.sr_status result;
                        JobQueue.createdAt := ValidDate now3 |},
             st')
        | (Throws err, st') => (Throws err, st')
        end
  end.

(** [Mutation.cancelScheduledPost(_, { jobId }, { user })] *)
Definition cancelScheduledPost (st : JobQueue.State Q) (user : option Z)
    (jobId : string) : Outcome bool * JobQueue.State Q :=
  match user with
  | None => (Throws (mkError "Not authenticated"), st)
  | Some userId =>
      match JobQueue.getScheduledPosts st userId with
      | Throws err => (Throws err, st)
      | Returns userJobs =>
          match List.find (λ job, String.eqb (JobQueue.jobId job) jobId)
                  userJobs with
          | None =>
              (Throws
                 (mkError "Scheduled post not found or does not belong to you"),
               st)
          | Some _ =>
              match JobQueue.cancelScheduledPost st jobId with
              | (Returns _, st') => (Returns true, st')
              | (Throws err, st') => (Throws err, st')
              end
          end
      end
  end.

End Mutations.

End Resolvers.

(** ** A list-backed queue

    A small stand-in for a Bull queue, used to run the facade on concrete
    inputs: jobs are kept oldest first with the name of the list they are
    in; a job added with a delay starts in ["delayed"]; an identifier
    already present is not added twice; removal is rejected for a job a
    worker is processing, and no other operation is ever rejected. *)

Module ListQueue.

Definition t : Type := list (string * Bull.Job).

Definition inState (q : t) (s : string) : list Bull.Job :=
  (filter (λ e, e.1 = s) q).*2.

Definition getJob (q : t) (jobId : string) : option Bull.Job :=
  snd <$> List.find (λ e, String.eqb (Bull.id e.2) jobId) q.

Definition add (q : t) (name : string) (postData : PostData) (userId : Z)
    (delay : Num) (jobId : string) : t * Bull.Job :=
  match getJob q jobId with
  | Some job => (q, job)
  | None =>
      let job := Bull.mkJob jobId postData userId delay None 0 in
      ((q ++ [("delayed", job)])%list, job)
  end.

Definition remove (q : t) (job : Bull.Job) : Outcome t :=
  if existsb (λ e, String.eqb e.1 "active" && String.eqb (Bull.id e.2) (Bull.id job)) q then
    Throws (mkError ("Could not remove job " ++ Bull.id job))
  else
    Returns (filter (λ e, Bull.id e.2 ≠ Bull.id job) q).

Definition getJobs (q : t) (types : list string) : list Bull.Job :=
  (filter (λ e, e.1 ∈ types) q).*2.

#[global] Instance queue : Bull.Queue t :=
  {| Bull.add := λ q name postData userId delay jobId,
       Returns (add q name postData userId delay jobId);
     Bull.getJob := λ q jobId, Returns (getJob q jobId);
     Bull.remove := remove;
     Bull.getJobs := λ q types, Returns (getJobs q types);
     Bull.getWaiting := λ q, Returns (inState q "waiting");
     Bull.getActive := λ q, Returns (inState q "active");
     Bull.getCompleted := λ q, Returns (inState q "completed");
     Bull.getFailed := λ q, Returns (inState q "failed");
     Bull.getDelayed := λ q, Returns (inState q "delayed") |}.

End ListQueue.

(** ** A queue that has lost its connection

    The other stand-in: a queue whose Redis connection is gone, so that
    every operation is rejected. *)

Module OfflineQueue.

Definition t : Type := unit.

Definition closed : Error := mkError "Connection is closed.".

#[global] Instance queue : Bull.Queue t :=
  {| Bull.add := λ _ _ _ _ _ _, Throws closed;
     Bull.getJob := λ _ _, Throws closed;
     Bull.remove := λ _ _, Throws closed;
     Bull.getJobs := λ _ _, Throws closed;
     Bull.getWaiting := λ _, Throws closed;
     Bull.getActive := λ _, Throws closed;
     Bull.getCompleted := λ _, Throws closed;
     Bull.getFailed := λ _, Throws closed;
     Bull.getDelayed := λ _, Throws closed |}.

End OfflineQueue.

(** ** Invariant of the in-memory store *)

Section StoreInvariant.

Context {Q : Type}.

Implicit Types (st : JobQueue.State Q) (m : gmap string Job) (c : N).

(** Every entry is ['scheduled'] or ['failed'], is stored under its own
    [id], and that identifier was issued by the counter. *)
Record StoreInv m c : Prop := mkStoreInv {
  inv_status :
    map_Forall (λ _ job, job_status job = Scheduled ∨ job_status job = Failed) m;
  inv_id : map_Forall (λ k job, job_id job = k) m;
  inv_issued :
    map_Forall (λ k _, ∃ n, k = JobQueue.memoryJobId n
                            ∧ ((n < c)%N ∨ c = MAX_EXACT)) m;
  inv_counter : (c ≤ MAX_EXACT)%N
}.

Definition Inv st : Prop :=
  StoreInv (JobQueue.inMemoryJobs st) (JobQueue.jobIdCounter st).

End StoreInvariant.

(** ** Concrete runs

    Runs over the list-backed queue on which the definitions are
    evaluated. *)

Module Scenario.

Import JobQueue.

(** The probe has failed, user 7 has scheduled a post for time 6000 at
    time 1000, its timer has fired and post creation has failed. *)
Definition failedRun : list (Event ListQueue.t) :=
  [EvInit ProbeFailed;
   EvSchedule 1000 1001 (mkPostData "hello") 7 (ValidDate 6000);
   EvTimer 0;
   EvSettle 0 (Throws (mkError "connection lost"))].

(** Before the probe has answered, user 7 schedules a post; that job is
    cancelled; user 8 schedules another post. *)
Definition st0 : State ListQueue.t := initial.

Definition firstCall : Outcome ScheduleResult * State ListQueue.t :=
  schedulePost st0 1000 1001 (mkPostData "hello") 7 (ValidDate 6000).

Definition between : list (Event ListQueue.t) := [EvCancel "memory-job-1"].

Definition secondCall : Outcome ScheduleResult * State ListQueue.t :=
  schedulePost (run firstCall.2 between) 2000 2001 (mkPostData "world") 8
    (ValidDate 9000).

Definition firstResult : ScheduleResult :=
  mkScheduleResult "memory-job-1" (ValidDate 6000) Scheduled
    "Post scheduled successfully (in-memory)".

Definition secondResult : ScheduleResult :=
  mkScheduleResult "memory-job-2" (ValidDate 9000) Scheduled
    "Post scheduled successfully (in-memory)".

(** The probe has failed and user 7 has a post scheduled; then that job
    is cancelled; then its timer fires. *)
Definition scheduled : State ListQueue.t :=
  run initial [EvInit ProbeFailed;
               EvSchedule 1000 1001 (mkPostData "hello") 7 (ValidDate 6000)].

Definition cancelled : State ListQueue.t :=
  (cancelScheduledPost scheduled "memory-job-1").2.

Definition fired : State ListQueue.t := timerFires cancelled 0.

(** A job scheduled while the probe was still running, and the durable
    queue becoming active afterwards. *)
Definition mixed : State ListQueue.t :=
  run initial [EvSchedule 1000 1001 (mkPostData "hello") 7 (ValidDate 6000);
               EvInit (QueueReady [])].

(** The probe has failed; user 7 and then user 8 schedule a post. *)
Definition twoUsers : State ListQueue.t :=
  run initial [EvInit ProbeFailed;
               EvSchedule 1000 1001 (mkPostData "hello") 7 (ValidDate 6000);
               EvSchedule 2000 2001 (mkPostData "world") 8 (ValidDate 9000)].

(** The durable queue was set up at startup and its connection was lost
    afterwards. *)
Definition offline : State OfflineQueue.t :=
  run initial [EvInit (QueueReady tt)].

(** A current time, and a time two years later. *)
Definition now : Z := 1700000000000.

Definition twoYearsAhead : Z := now + 2 * Controller.ONE_YEAR_MS.

(** A content validation that accepts everything, and a [Date.parse] that
    understands nothing. *)
Definition acceptAll (content : string) : option string := None.

Definition parseNothing (s : string) : Num := NaN.

End Scenario.

(** ** The Redis client configuration, second part of [src/utils/jobQueue.js] *)

Module RedisConfig.

(** The [options] handed to [retry_strategy]: the [code] of
    [options.error] when there is an error that has one,
    [options.total_retry_time] and [options.attempt]. *)
Record RetryOptions : Type := mkRetryOptions {
  error_code : option string;
  total_retry_time : Z;
  attempt : Z
}.

(** What [retry_strategy] returns: an [Error], [undefined], or a number of
    milliseconds. *)
Inductive RetryDecision : Type :=
| GiveUp (e : Error)
| StopRetrying
| RetryAfter (ms : Z).

Definition retry_strategy (options : RetryOptions) : RetryDecision :=
  if bool_decide (error_code options = Some "ECONNREFUSED") then
    GiveUp (mkError "The Redis server refused the connection")
  else if (1000 * 60 * 60 <? total_retry_time options)%Z then
    GiveUp (mkError "Retry time exhausted")
  else if (10 <? attempt options)%Z then
    StopRetrying
  else
    RetryAfter (Z.min (attempt options * 100) 3000).

(** [class MockRedis]: [this.data] and [this.verbose]; the methods return
    their result next to the object after the call. *)
Record MockRedis : Type := mkMockRedis {
  data : gmap string string;
  verbose : bool
}.

(** [constructor()] *)
Definition create : MockRedis := {| data := ∅; verbose := true |}.

(** [async set(key, value)] *)
Definition set (r : MockRedis) (key value : string) : string * MockRedis :=
  ("OK", {| data := <[key := value]> (data r); verbose := verbose r |}).

(** [async get(key)]; [None] is [undefined]. *)
Definition get (r : MockRedis) (key : string) : option string := data r !! key.

(** [async del(key)]: [Map.delete] tells whether the key was there. *)
Definition del (r : MockRedis) (key : string) : Z * MockRedis :=
  ((if data r !! key is Some _ then 1 else 0)%Z,
   {| data := delete key (data r); verbose := verbose r |}).

(** [async quit()] *)
Definition quit (r : MockRedis) : string := "OK".

End RedisConfig.

(** ** The authentication middleware, second part of
    [src/controllers/scheduled.js] *)

Module Auth.

(** A row of [users] as [getUserById] returns it; the handlers read its
    [id]. *)
Record User : Type := mkUser { id : Z }.

(** What a middleware does: it answers the request itself, or it calls
    [next()]; [U] is what is known of [req.user] at that point. *)
Inductive Result (U : Type) : Type :=
| Respond (r : Controller.Response)
| Next (user : U).

Arguments Respond {U} r.
Arguments Next {U} user.

Definition unauthorized {U : Type} (error : string) : Result U :=
  Respond (Controller.mkResponse 401 (Controller.ErrorBody error None)).

(** [s.slice(n)] *)
Definition slice (n : nat) (s : string) : string :=
  String.substring n (String.length s - n) s.

Section Middleware.

(** [verifyToken] of [utils/jwt] gives the [userId] of the decoded token
    or throws; [getUserById] of [models/user] queries the database and
    gives the row, or [null]. *)
Variable verifyToken : string -> Outcome Z.
Variable getUserById : Z -> Outcome (option User).

(** [authenticateToken(req, res, next)] for
    [req.headers["authorization"] = authHeader]. *)
Definition authenticateToken (authHeader : option string) : Result User :=
  match authHeader with
  | None => unauthorized "Access token required"
  | Some header =>
      if String.eqb header EmptyString then
        unauthorized "Access token required"
      else if negb (String.prefix "Bearer " header) then
        unauthorized "Authorization header must start with 'Bearer '"
      else
        let token := slice 7 header in
        match verifyToken token with
        | Throws _ => unauthorized "Invalid token"
        | Returns userId =>
            match getUserById userId with
            | Throws _ => unauthorized "Invalid token"
            | Returns None => unauthorized "User not found"
            | Returns (Some user) => Next user
            end
        end
  end.

(** [optionalAuth(req, res, next)] *)
Definition optionalAuth (authHeader : option string) : Result (option User) :=
  match authHeader with
  | None => Next None
  | Some header =>
      if String.eqb header EmptyString then Next None
      else
        let token :=
          if String.prefix "Bearer " header then slice 7 header else header in
        match verifyToken token with
        | Throws _ => Next None
        | Returns userId =>
            match getUserById userId with
            | Throws _ => Next None
            | Returns user => Next user
            end
        end
  end.

End Middleware.

End Auth.

(** ** The routes of the scheduled posts: [src/routes/scheduled.js]

    Each route runs [authenticateToken] and then its handler, which is
    reached only when the middleware has called [next()]; the handler reads
    [req.user.id]. *)

Module Routes.

Section Router.

Context {Q : Type} `{!Bull.Queue Q}.

Variable verifyToken : string -> Outcome Z.
Variable getUserById : Z -> Outcome (option Auth.User).
Variable validate : string -> option string.
Variable parse : string -> Num.

(** The chain [authenticateToken, handler] of a route. *)
Definition guarded (authHeader : option string) (st : JobQueue.State Q)
    (handler : Z -> Controller.Response * JobQueue.State Q)
  : Controller.Response * JobQueue.State Q :=
  match Auth.authenticateToken verifyToken getUserById authHeader with
  | Auth.Respond r => (r, st)
  | Auth.Next user => handler (Auth.id user)
  end.

(** [router.post('/schedule', authenticateToken, scheduleNewPost)] *)
Definition postSchedule (st : JobQueue.State Q) (now now1 now2 : Z)
    (authHeader : option string) (content : string) (scheduledTime : Value)
  : Controller.Response * JobQueue.State Q :=
  guarded authHeader st
    (λ userId, Controller.scheduleNewPost validate parse st now now1 now2
                 userId content scheduledTime).

(** [router.get('/scheduled', authenticateToken, getUserScheduledPosts)] *)
Definition getScheduled (st : JobQueue.State Q) (authHeader : option string)
  : Controller.Response * JobQueue.State Q :=
  guarded authHeader st
    (λ userId, (Controller.getUserScheduledPosts st userId, st)).

(** [router.delete('/scheduled/:jobId', authenticateToken,
    cancelScheduledPostById)] *)
Definition deleteScheduled (st : JobQueue.State Q) (authHeader : option string)
    (jobId : string) : Controller.Response * JobQueue.State Q :=
  guarded authHeader st
    (λ userId, Controller.cancelScheduledPostById st userId jobId).

(** [router.get('/admin/queue/stats', authenticateToken,
    getScheduleQueueStats)] *)
Definition getAdminQueueStats (st : JobQueue.State Q) (authHeader : option string)
  : Controller.Response * JobQueue.State Q :=
  guarded authHeader st (λ _, (Controller.getScheduleQueueStats st, st)).

End Router.

End Routes.

(** ** The publication log of the fallback

    The identifiers of the calls to [Post.createPost] made for fallback
    jobs, and the identifiers captured by the armed timers.  An event is
    [ordinary] unless it is the durable processor started with a job that
    bears a fallback identifier, which the durable queue never holds since
    its identifiers start with 'scheduled-post-'. *)

Section PublicationLog.

Context {Q : Type} `{!Bull.Queue Q}.

Definition isMemoryJobId (jobId : string) : Prop :=
  String.prefix "memory-job-" jobId = true.

Definition memoryCalls (st : JobQueue.State Q) : list string :=
  filter isMemoryJobId (call_jobId <$> JobQueue.createPostCalls st).

Definition armed (st : JobQueue.State Q) : list string :=
  timer_jobId <$> JobQueue.timers st.

(** An event other than the resumption of [initializeQueue]. *)
Definition beforeInit (ev : JobQueue.Event Q) : Prop :=
  match ev with
  | JobQueue.EvInit _ => False
  | _ => True
  end.

Definition ordinary (ev : JobQueue.Event Q) : Prop :=
  match ev with
  | JobQueue.EvProcess job => String.prefix "memory-job-" (Bull.id job) = false
  | _ => True
  end.

(** No identifier occurs twice among the calls made and the timers still
    armed, and each of them was issued by the counter. *)
Definition publishedOnce (st : JobQueue.State Q) : Prop :=
  NoDup (memoryCalls st ++ armed st)
  ∧ Forall (λ jobId, ∃ n, jobId = JobQueue.memoryJobId n
                          ∧ (n < JobQueue.jobIdCounter st)%N)
           (memoryCalls st ++ armed st).

End PublicationLog.

(** * Properties *)

Import JobQueue.

Local Open Scope list_scope.

(** ** Dates and counters *)

Lemma date_le_delay (scheduledTime : Date) (now : Z) :
  le (sub (getTime scheduledTime) (Finite now)) (Finite 0)
  = date_le scheduledTime (ValidDate now).
Proof.
  destruct scheduledTime as [ms|]; [|done].
  unfold date_le, le, sub, getTime.
  destruct (Z.leb_spec (ms - now) 0), (Z.leb_spec ms now); auto; lia.
Qed.

Lemma incr_exact (n : N) : (n < MAX_EXACT)%N → incr n = (n + 1)%N.
Proof. intros Hn. unfold incr. by apply N.ltb_lt in Hn as ->. Qed.

Lemma incr_mono (n : N) : (n ≤ incr n)%N.
Proof. unfold incr. destruct (N.ltb_spec n MAX_EXACT); lia. Qed.

Lemma incr_bounded (n : N) : (n ≤ MAX_EXACT)%N → (incr n ≤ MAX_EXACT)%N.
Proof. unfold incr. destruct (N.ltb_spec n MAX_EXACT); lia. Qed.

Lemma memoryJobId_inj (n m : N) : memoryJobId n = memoryJobId m → n = m.
Proof.
  unfold memoryJobId. intros Heq.
  apply (inj (String.append "memory-job-")) in Heq.
  by apply (inj pretty) in Heq.
Qed.

Lemma prefix_append (s t : string) : String.prefix s (s ++ t) = true.
Proof.
  induction s as [|a s IH]; simpl; [by destruct t|].
  by destruct (Ascii.ascii_dec a a).
Qed.

Lemma memoryJobId_prefix (n : N) : String.prefix "memory-job-" (memoryJobId n) = true.
Proof. apply prefix_append. Qed.

(** ** Invariants of the in-memory store *)

Section Invariants.

Context {Q : Type} `{!Bull.Queue Q}.

Implicit Types (st : State Q) (ev : Event Q) (m : gmap string Job) (c : N).

Lemma Inv_initial : Inv (initial (Q := Q)).
Proof.
  split; [apply map_Forall_empty..|]. by vm_compute.
Qed.

Lemma StoreInv_delete m c k : StoreInv m c → StoreInv (delete k m) c.
Proof.
  intros [H1 H2 H3 H4]. split; [by apply map_Forall_delete..|done].
Qed.

Lemma StoreInv_schedule m c postData userId scheduledTime created :
  StoreInv m c →
  StoreInv (<[memoryJobId c :=
               mkJob (memoryJobId c) postData userId scheduledTime Scheduled
                 created None]> m)
           (incr c).
Proof.
  intros [H1 H2 H3 H4]. split.
  - apply map_Forall_insert_2; auto.
  - apply map_Forall_insert_2; auto.
  - assert (Hc : (c < incr c)%N ∨ incr c = MAX_EXACT).
    { unfold incr. destruct (N.ltb_spec c MAX_EXACT); lia. }
    apply map_Forall_insert_2; [by exists c|].
    intros k job Hk. destruct (H3 k job Hk) as (n & -> & Hn).
    exists n. split; [done|].
    destruct Hn as [Hn| ->]; [|by right].
    pose proof (incr_mono c). left. lia.
  - by apply incr_bounded.
Qed.

Lemma StoreInv_settle m c jobId o : StoreInv m c → StoreInv (settleJobs jobId o m) c.
Proof.
  intros HI. destruct o as [[]|err]; simpl; [by apply StoreInv_delete|].
  destruct (m !! jobId) as [job|] eqn:Hjob; [|done].
  destruct HI as [H1 H2 H3 H4]. split; auto.
  - apply map_Forall_insert_2; auto.
  - apply map_Forall_insert_2; auto. simpl. by apply (H2 jobId job).
  - apply map_Forall_insert_2; auto. by apply (H3 jobId job).
Qed.

(** A cancellation leaves the counter alone and, in the map, deletes at
    most the entry of its argument. *)
Lemma cancelScheduledPost_store st jobId :
  jobIdCounter (cancelScheduledPost st jobId).2 = jobIdCounter st
  ∧ (inMemoryJobs (cancelScheduledPost st jobId).2 = inMemoryJobs st
     ∨ inMemoryJobs (cancelScheduledPost st jobId).2
       = delete jobId (inMemoryJobs st)).
Proof.
  unfold cancelScheduledPost. repeat case_match; simpl; auto.
Qed.

Lemma Inv_step st ev : Inv st → Inv (step st ev).
Proof.
  unfold Inv. intros HI. destruct ev as [o|now now' pd uid t|jobId|k|k o|job|q]; simpl.
  - destruct (initPending st); [|done]. by destruct o.
  - unfold schedulePost. destruct (le _ _); [done|].
    destruct (durable st) as [q|].
    + by destruct (Bull.add _ _ _ _ _ _) as [[q' job]|err].
    + simpl. by apply StoreInv_schedule.
  - destruct (cancelScheduledPost_store st jobId) as (-> & [-> | ->]);
      auto using StoreInv_delete.
  - unfold timerFires. by destruct (timers st !! k).
  - unfold createPostSettles. destruct (inFlight st !! k); [|done].
    simpl. by apply StoreInv_settle.
  - done.
  - by destruct (scheduledPostsQueue st).
Qed.

Lemma Inv_run st evs : Inv st → Inv (run st evs).
Proof.
  revert st. induction evs as [|ev evs IH]; intros st HI; [done|].
  simpl. apply IH. by apply Inv_step.
Qed.

Lemma reachable_Inv st : reachable st → Inv st.
Proof. intros [evs ->]. apply Inv_run, Inv_initial. Qed.

End Invariants.

(** ** Statistics of the fallback store *)

Lemma length_scheduled_failed (jobs : list Job) :
  Forall (λ job, job_status job = Scheduled ∨ job_status job = Failed) jobs →
  length jobs
  = length (filter (λ job, job_status job = Failed) jobs)
    + length (filter (λ job, job_status job = Scheduled) jobs).
Proof.
  induction 1 as [|job jobs Hjob _ IH]; [done|].
  rewrite !filter_cons. destruct Hjob as [Hs|Hf].
  - rewrite Hs. repeat case_decide; try done. simpl. lia.
  - rewrite Hf. repeat case_decide; try done. simpl. lia.
Qed.

Lemma values_Forall (P : Job → Prop) (m : gmap string Job) :
  map_Forall (λ _ job, P job) m → Forall P (values m).
Proof.
  intros Hm. unfold values. apply Forall_fmap, Forall_forall.
  intros [k job] Hin. apply elem_of_map_to_list in Hin. by apply (Hm k job).
Qed.

Lemma elem_of_values (job : Job) (m : gmap string Job) :
  job ∈ values m ↔ ∃ k, m !! k = Some job.
Proof.
  unfold values. rewrite list_elem_of_fmap. split.
  - intros ([k job'] & -> & Hin). exists k. by apply elem_of_map_to_list.
  - intros [k Hk]. exists (k, job). split; [done|]. by apply elem_of_map_to_list.
Qed.

(** C10: in every reachable state each entry of the in-memory map has
    status 'scheduled' or 'failed'; hence, when the fallback is the active
    backend, the statistics have waiting = active = completed = 0 and
    total = failed + delayed. *)
Theorem C10_fallback_statuses_and_stats {Q : Type} `{!Bull.Queue Q} (st : State Q) :
  reachable st →
  (∀ k job, inMemoryJobs st !! k = Some job →
            job_status job = Scheduled ∨ job_status job = Failed)
  ∧ (durable st = None →
     ∃ stats,
       getQueueStats st = Returns stats
       ∧ waiting stats = 0
       ∧ active stats = 0
       ∧ completed stats = 0
       ∧ total stats = failed stats + delayed stats).
Proof.
  intros Hreach. destruct (reachable_Inv st Hreach) as [Hstatus _ _ _].
  split; [exact Hstatus|].
  intros Hfallback. unfold getQueueStats. rewrite Hfallback.
  eexists. split; [reflexivity|]. simpl.
  repeat split. by apply length_scheduled_failed, values_Forall.
Qed.

Lemma C10_witness :
  reachable (run initial Scenario.failedRun)
  ∧ durable (run initial Scenario.failedRun) = None
  ∧ ∃ stats,
      getQueueStats (run initial Scenario.failedRun) = Returns stats
      ∧ waiting stats = 0
      ∧ active stats = 0
      ∧ completed stats = 0
      ∧ total stats = failed stats + delayed stats.
Proof.
  assert (Hreach : reachable (run initial Scenario.failedRun)) by (by eexists).
  split; [exact Hreach|]. split; [reflexivity|].
  apply (C10_fallback_statuses_and_stats _ Hreach). reflexivity.
Defined.

(** ** Job identifiers of the fallback backend *)

Section Identifiers.

Context {Q : Type} `{!Bull.Queue Q}.

Implicit Types (st : State Q) (ev : Event Q).

Lemma schedulePost_fallback st now now' postData userId scheduledTime r st' :
  durable st = None →
  schedulePost st now now' postData userId scheduledTime = (Returns r, st') →
  sr_jobId r = memoryJobId (jobIdCounter st)
  ∧ sr_status r = Scheduled
  ∧ jobIdCounter st' = incr (jobIdCounter st)
  ∧ inMemoryJobs st'
    = <[memoryJobId (jobIdCounter st) :=
          mkJob (memoryJobId (jobIdCounter st)) postData userId scheduledTime
            Scheduled (ValidDate now') None]> (inMemoryJobs st)
  ∧ timers st'
    = (timers st ++ [mkTimer (memoryJobId (jobIdCounter st)) postData userId
                       (sub (getTime scheduledTime) (Finite now))])%list.
Proof.
  intros Hfallback. unfold schedulePost. rewrite Hfallback.
  destruct (le _ _); [done|]. by intros [= <- <-].
Qed.

Lemma step_counter st ev : (jobIdCounter st ≤ jobIdCounter (step st ev))%N.
Proof.
  destruct ev as [o|now now' pd uid t|jobId|k|k o|job|q]; simpl.
  - destruct (initPending st); [|done]. by destruct o.
  - unfold schedulePost. destruct (le _ _); [done|].
    destruct (durable st) as [q|].
    + by destruct (Bull.add _ _ _ _ _ _) as [[q' job]|err].
    + apply incr_mono.
  - by destruct (cancelScheduledPost_store st jobId) as [-> _].
  - unfold timerFires. by destruct (timers st !! k).
  - unfold createPostSettles. by destruct (inFlight st !! k).
  - done.
  - by destruct (scheduledPostsQueue st).
Qed.

Lemma run_counter st evs : (jobIdCounter st ≤ jobIdCounter (run st evs))%N.
Proof.
  revert st. induction evs as [|ev evs IH]; intros st; [done|].
  simpl. etrans; [apply step_counter|apply IH].
Qed.

Lemma reachable_run st evs : reachable st → reachable (run st evs).
Proof.
  intros [evs0 ->]. exists (evs0 ++ evs). unfold run. by rewrite foldl_app.
Qed.

Lemma reachable_step st ev : reachable st → reachable (step st ev).
Proof. apply (reachable_run st [ev]). Qed.

(** C8: fallback identifiers come from the counter, which grows with every
    fallback scheduling; two scheduling calls made on the fallback branch,
    in this order and with any events in between, return different
    identifiers, and the identifier returned is not the key of any entry
    already in the map.  The counter is a JavaScript number: its increment
    is exact below 2^53. *)
Theorem C8_fallback_job_ids_unique st1 evs
    now1 now1' postData1 userId1 time1 r1 st1'
    now2 now2' postData2 userId2 time2 r2 st2' :
  reachable st1 →
  durable st1 = None →
  schedulePost st1 now1 now1' postData1 userId1 time1 = (Returns r1, st1') →
  durable (run st1' evs) = None →
  schedulePost (run st1' evs) now2 now2' postData2 userId2 time2
  = (Returns r2, st2') →
  (jobIdCounter (run st1' evs) < MAX_EXACT)%N →
  sr_jobId r1 = memoryJobId (jobIdCounter st1)
  ∧ sr_jobId r2 = memoryJobId (jobIdCounter (run st1' evs))
  ∧ (jobIdCounter st1 < jobIdCounter (run st1' evs))%N
  ∧ (jobIdCounter (run st1' evs) < jobIdCounter st2')%N
  ∧ sr_jobId r1 ≠ sr_jobId r2
  ∧ inMemoryJobs (run st1' evs) !! sr_jobId r2 = None.
Proof.
  intros Hreach Hfb1 Hcall1 Hfb2 Hcall2 Hsafe.
  destruct (schedulePost_fallback _ _ _ _ _ _ _ _ Hfb1 Hcall1)
    as (Hid1 & _ & Hc1 & _).
  destruct (schedulePost_fallback _ _ _ _ _ _ _ _ Hfb2 Hcall2)
    as (Hid2 & _ & Hc2 & _).
  pose proof (run_counter st1' evs) as Hmono.
  pose proof (incr_mono (jobIdCounter st1)) as Hle.
  assert (Hlt : (jobIdCounter st1 < jobIdCounter (run st1' evs))%N).
  { rewrite Hc1 in Hmono. rewrite incr_exact in Hmono; lia. }
  repeat split; try done.
  - rewrite Hc2, incr_exact; lia.
  - rewrite Hid1, Hid2. intros Heq%memoryJobId_inj. lia.
  - rewrite Hid2.
    assert (Hinv : Inv (run st1' evs)).
    { apply reachable_Inv, reachable_run.
      replace st1' with (step st1 (EvSchedule now1 now1' postData1 userId1 time1))
        by (simpl; by rewrite Hcall1).
      by apply reachable_step. }
    destruct (inMemoryJobs (run st1' evs) !! _) as [job|] eqn:Hjob; [|done].
    destruct (inv_issued _ _ Hinv _ _ Hjob) as (n & Hn%memoryJobId_inj & Hbound).
    lia.
Qed.

End Identifiers.

Lemma C8_witness :
  Scenario.firstCall.1 = Returns Scenario.firstResult
  ∧ Scenario.secondCall.1 = Returns Scenario.secondResult
  ∧ sr_jobId Scenario.firstResult ≠ sr_jobId Scenario.secondResult.
Proof.
  split; [by vm_compute|]. split; [by vm_compute|].
  assert (Hreach : reachable Scenario.st0) by (by exists []).
  assert (Hcall1 : schedulePost Scenario.st0 1000 1001 (mkPostData "hello") 7
                     (ValidDate 6000)
                   = (Returns Scenario.firstResult, Scenario.firstCall.2))
    by (by vm_compute).
  assert (Hcall2 : schedulePost (run Scenario.firstCall.2 Scenario.between)
                     2000 2001 (mkPostData "world") 8 (ValidDate 9000)
                   = (Returns Scenario.secondResult, Scenario.secondCall.2))
    by (by vm_compute).
  assert (Hsafe : (jobIdCounter (run Scenario.firstCall.2 Scenario.between)
                   < MAX_EXACT)%N) by (by vm_compute).
  assert (Hfb2 : durable (run Scenario.firstCall.2 Scenario.between) = None)
    by (by vm_compute).
  exact (proj1 (proj2 (proj2 (proj2 (proj2
    (C8_fallback_job_ids_unique Scenario.st0 Scenario.between
       _ _ _ _ _ _ _ _ _ _ _ _ _ _
       Hreach eq_refl Hcall1 Hfb2 Hcall2 Hsafe)))))).
Defined.

(** ** Cancellation, listing and statistics *)

Section Operations.

Context {Q : Type} `{!Bull.Queue Q}.

Implicit Types (st : State Q) (ev : Event Q).

(** C6: a cancellation that succeeds leaves every entry of the in-memory
    map other than the one of its argument as it was (the whole record:
    id, postData, userId, scheduledTime, status, createdAt, error), and
    touches neither the counter nor the timers. *)
Theorem C6_cancel_leaves_other_jobs st jobId r st' :
  cancelScheduledPost st jobId = (Returns r, st') →
  (∀ k, k ≠ jobId → inMemoryJobs st' !! k = inMemoryJobs st !! k)
  ∧ jobIdCounter st' = jobIdCounter st
  ∧ timers st' = timers st
  ∧ inFlight st' = inFlight st.
Proof.
  unfold cancelScheduledPost. intros Hcancel.
  repeat case_match; simplify_eq; simpl; repeat split; try done.
  all: intros k Hk; by rewrite lookup_delete_ne.
Qed.

Lemma getScheduledPosts_fallback st userId :
  durable st = None →
  getScheduledPosts st userId
  = Returns (viewOfJob <$>
               filter (λ job, job_userId job = userId) (values (inMemoryJobs st))).
Proof. intros Hfallback. unfold getScheduledPosts. by rewrite Hfallback. Qed.

Lemma elem_of_getScheduledPosts st userId views v :
  getScheduledPosts st userId = Returns views →
  v ∈ views ↔
  match durable st with
  | Some q =>
      ∃ jobs job, Bull.getJobs q ["delayed"; "waiting"] = Returns jobs
                  ∧ job ∈ jobs
                  ∧ Bull.data_userId job = userId
                  ∧ v = viewOfBullJob job
  | None =>
      ∃ k job, inMemoryJobs st !! k = Some job
               ∧ job_userId job = userId
               ∧ v = viewOfJob job
  end.
Proof.
  unfold getScheduledPosts. destruct (durable st) as [q|].
  - destruct (Bull.getJobs q _) as [jobs|err]; simpl; [|done].
    intros [= <-]. rewrite list_elem_of_fmap. split.
    + intros (job & -> & [Huser Hin]%list_elem_of_filter). by exists jobs, job.
    + intros (jobs' & job & [= <-] & Hin & Huser & ->). exists job.
      split; [done|]. by apply list_elem_of_filter.
  - intros [= <-]. rewrite list_elem_of_fmap. split.
    + intros (job & -> & [Huser [k Hk]%elem_of_values]%list_elem_of_filter).
      by exists k, job.
    + intros (k & job & Hk & Huser & ->). exists job. split; [done|].
      apply list_elem_of_filter. split; [done|]. apply elem_of_values. by exists k.
Qed.

(** C7: the views returned by [getScheduledPosts] for a user are exactly
    the views of the jobs of the active backend whose [userId] is that
    user: jobs listed as delayed or waiting by the durable queue, or
    entries of the in-memory map.  The fallback always answers; the
    durable backend answers when its listing does, and its rejection is
    rethrown.  On the fallback, where every entry is stored under its own
    identifier, a job of another user has no view in the result, not even
    one that shares its identifier. *)
Theorem C7_listing_only_owner st userId :
  (∀ views, getScheduledPosts st userId = Returns views →
     ∀ v, v ∈ views ↔
          match durable st with
          | Some q =>
              ∃ jobs job, Bull.getJobs q ["delayed"; "waiting"] = Returns jobs
                          ∧ job ∈ jobs
                          ∧ Bull.data_userId job = userId
                          ∧ v = viewOfBullJob job
          | None =>
              ∃ k job, inMemoryJobs st !! k = Some job
                       ∧ job_userId job = userId
                       ∧ v = viewOfJob job
          end)
  ∧ (durable st = None → ∃ views, getScheduledPosts st userId = Returns views)
  ∧ (∀ q, durable st = Some q →
       (∀ jobs, Bull.getJobs q ["delayed"; "waiting"] = Returns jobs →
                ∃ views, getScheduledPosts st userId = Returns views)
       ∧ (∀ err, Bull.getJobs q ["delayed"; "waiting"] = Throws err →
                 getScheduledPosts st userId = Throws err))
  ∧ (reachable st → durable st = None →
     ∀ k job, inMemoryJobs st !! k = Some job → job_userId job ≠ userId →
     ∀ views, getScheduledPosts st userId = Returns views →
     ∀ v, v ∈ views → jobId v ≠ job_id job).
Proof.
  split; [|split; [|split]].
  - intros views Hviews v. by apply elem_of_getScheduledPosts.
  - intros Hfallback. eexists. by apply getScheduledPosts_fallback.
  - intros q Hq. unfold getScheduledPosts. rewrite Hq. split.
    + intros jobs ->. by eexists.
    + by intros err ->.
  - intros Hreach Hfallback k job Hk Hother views Hviews v Hv Heq.
    apply (elem_of_getScheduledPosts _ _ _ _ Hviews) in Hv.
    rewrite Hfallback in Hv.
    destruct Hv as (k' & job' & Hk' & Huser & ->).
    destruct (reachable_Inv st Hreach) as [_ Hid _ _].
    assert (k' = k) as ->.
    { rewrite <- (Hid k' job' Hk'), <- (Hid k job Hk). exact Heq. }
    congruence.
Qed.

Lemma run_initialized st evs :
  initPending st = false →
  initPending (run st evs) = false
  ∧ isRedisAvailable (run st evs) = isRedisAvailable st.
Proof.
  revert st. induction evs as [|ev evs IH]; intros st Hdone; [done|].
  simpl.
  assert (Hstep : initPending (step st ev) = false
                  ∧ isRedisAvailable (step st ev) = isRedisAvailable st).
  { destruct ev as [o|now now' pd uid t|jobId|k|k o|job|q]; simpl.
    - by rewrite Hdone.
    - unfold schedulePost. repeat case_match; simplify_eq; done.
    - unfold cancelScheduledPost. repeat case_match; simplify_eq; done.
    - unfold timerFires. by case_match.
    - unfold createPostSettles. by case_match.
    - done.
    - by case_match. }
  destruct Hstep as [Hp Ha]. destruct (IH _ Hp) as [Hp' Ha'].
  split; [done|]. by rewrite Ha'.
Qed.

(** C9, as the code has it: [getQueueStats] returns its seven fields
    whenever the backend answers, and the last one names the backend in
    use: on the fallback it always returns, with 'in-memory'; on the
    durable backend it returns, with 'redis', exactly when the five queue
    queries answer, and a rejection of one of them is rethrown.  Once
    [initializeQueue] has resumed from a failed probe, it always returns
    with 'in-memory', whatever happens afterwards. *)
Theorem C9_stats_report_backend st :
  (durable st = None →
   ∃ f d t, getQueueStats st = Returns (mkStats 0 0 0 f d t "in-memory"))
  ∧ (∀ q, durable st = Some q →
     (∀ w a c f d,
        Bull.getWaiting q = Returns w → Bull.getActive q = Returns a →
        Bull.getCompleted q = Returns c → Bull.getFailed q = Returns f →
        Bull.getDelayed q = Returns d →
        getQueueStats st
        = Returns (mkStats (length w) (length a) (length c) (length f) (length d)
                     (length w + length a + length c + length f + length d)
                     "redis"))
     ∧ (∀ stats, getQueueStats st = Returns stats →
          ∃ w a c f d,
            Bull.getWaiting q = Returns w ∧ Bull.getActive q = Returns a
            ∧ Bull.getCompleted q = Returns c ∧ Bull.getFailed q = Returns f
            ∧ Bull.getDelayed q = Returns d)
     ∧ (∀ err, getQueueStats st = Throws err →
          Bull.getWaiting q = Throws err ∨ Bull.getActive q = Throws err
          ∨ Bull.getCompleted q = Throws err ∨ Bull.getFailed q = Throws err
          ∨ Bull.getDelayed q = Throws err))
  ∧ (∀ stats, getQueueStats st = Returns stats →
     type stats = if durable st is Some _ then "redis" else "in-memory")
  ∧ (∀ evs, ∃ stats,
       getQueueStats (run (initializeQueue st ProbeFailed) evs) = Returns stats
       ∧ type stats = "in-memory").
Proof.
  split; [|split; [|split]].
  - intros Hfallback. unfold getQueueStats. rewrite Hfallback. by repeat eexists.
  - intros q Hq. unfold getQueueStats. rewrite Hq. split; [|split].
    + by intros w a c f d -> -> -> -> ->.
    + intros stats.
      destruct (Bull.getWaiting q) as [w|]; [|done].
      destruct (Bull.getActive q) as [a|]; [|done].
      destruct (Bull.getCompleted q) as [c|]; [|done].
      destruct (Bull.getFailed q) as [f|]; [|done].
      destruct (Bull.getDelayed q) as [d|]; [|done].
      intros _. by exists w, a, c, f, d.
    + intros err.
      destruct (Bull.getWaiting q) as [w|]; simpl; [|intros [= ->]; tauto].
      destruct (Bull.getActive q) as [a|]; simpl; [|intros [= ->]; tauto].
      destruct (Bull.getCompleted q) as [c|]; simpl; [|intros [= ->]; tauto].
      destruct (Bull.getFailed q) as [f|]; simpl; [|intros [= ->]; tauto].
      destruct (Bull.getDelayed q) as [d|]; simpl; [done|intros [= ->]; tauto].
  - intros stats. unfold getQueueStats. destruct (durable st) as [q|].
    + destruct (Bull.getWaiting q) as [w|]; [|done].
      destruct (Bull.getActive q) as [a|]; [|done].
      destruct (Bull.getCompleted q) as [c|]; [|done].
      destruct (Bull.getFailed q) as [f|]; [|done].
      destruct (Bull.getDelayed q) as [d|]; [|done].
      by intros [= <-].
    + by intros [= <-].
  - intros evs.
    destruct (run_initialized (initializeQueue st ProbeFailed) evs eq_refl)
      as [_ Havail].
    unfold getQueueStats, durable. rewrite Havail. by eexists.
Qed.

End Operations.

Lemma C6_witness :
  cancelScheduledPost Scenario.twoUsers "memory-job-1"
  = (Returns (mkCancelResult "memory-job-1" Cancelled
                "Scheduled post cancelled successfully (in-memory)"),
     run Scenario.twoUsers [EvCancel "memory-job-1"])
  ∧ inMemoryJobs Scenario.twoUsers !! "memory-job-2"
    = Some (mkJob "memory-job-2" (mkPostData "world") 8 (ValidDate 9000)
              Scheduled (ValidDate 2001) None)
  ∧ inMemoryJobs (run Scenario.twoUsers [EvCancel "memory-job-1"])
      !! "memory-job-2"
    = inMemoryJobs Scenario.twoUsers !! "memory-job-2".
Proof.
  assert (Hcancel : cancelScheduledPost Scenario.twoUsers "memory-job-1"
                    = (Returns (mkCancelResult "memory-job-1" Cancelled
                         "Scheduled post cancelled successfully (in-memory)"),
                       run Scenario.twoUsers [EvCancel "memory-job-1"]))
    by (by vm_compute).
  split; [exact Hcancel|]. split; [by vm_compute|].
  apply (proj1 (C6_cancel_leaves_other_jobs _ _ _ _ Hcancel)). discriminate.
Defined.

Lemma C7_witness :
  reachable Scenario.twoUsers
  ∧ getScheduledPosts Scenario.twoUsers 7
    = Returns [mkJobView "memory-job-1" (mkPostData "hello") (ValidDate 6000)
                 Scheduled (ValidDate 1001)]
  ∧ inMemoryJobs Scenario.twoUsers !! "memory-job-2"
    = Some (mkJob "memory-job-2" (mkPostData "world") 8 (ValidDate 9000)
              Scheduled (ValidDate 2001) None)
  ∧ ∀ v,
      v ∈ [mkJobView "memory-job-1" (mkPostData "hello") (ValidDate 6000)
             Scheduled (ValidDate 1001)] →
      jobId v ≠ "memory-job-2".
Proof.
  assert (Hreach : reachable Scenario.twoUsers) by (by eexists).
  assert (Hlist : getScheduledPosts Scenario.twoUsers 7
            = Returns [mkJobView "memory-job-1" (mkPostData "hello")
                         (ValidDate 6000) Scheduled (ValidDate 1001)])
    by (by vm_compute).
  assert (Hother : inMemoryJobs Scenario.twoUsers !! "memory-job-2"
            = Some (mkJob "memory-job-2" (mkPostData "world") 8 (ValidDate 9000)
                      Scheduled (ValidDate 2001) None))
    by (by vm_compute).
  split; [exact Hreach|]. split; [exact Hlist|]. split; [exact Hother|].
  apply (proj2 (proj2 (proj2 (C7_listing_only_owner Scenario.twoUsers 7)))
           Hreach eq_refl "memory-job-2" _ Hother); [discriminate|exact Hlist].
Defined.

Lemma C9_witness :
  durable Scenario.mixed = Some []
  ∧ getQueueStats Scenario.mixed = Returns (mkStats 0 0 0 0 0 0 "redis")
  ∧ getQueueStats Scenario.scheduled = Returns (mkStats 0 0 0 0 1 1 "in-memory").
Proof.
  split; [reflexivity|]. split.
  - apply (proj1 (proj1 (proj2 (C9_stats_report_backend Scenario.mixed))
                    [] eq_refl) [] [] [] [] []); reflexivity.
  - destruct (proj1 (C9_stats_report_backend Scenario.scheduled) eq_refl)
      as (f & d & t & Hstats).
    rewrite Hstats. revert Hstats. vm_compute. by intros [= <- <- <-].
Defined.

(** C9 as stated fails on the durable backend once its queries are
    rejected: the queue was set up at startup, its connection is lost, and
    [getQueueStats] rethrows instead of returning its object. *)
Lemma C9_counterexample :
  durable Scenario.offline = Some tt
  ∧ Bull.getWaiting (Q := OfflineQueue.t) tt = Throws OfflineQueue.closed
  ∧ getQueueStats Scenario.offline = Throws OfflineQueue.closed
  ∧ ¬ ∃ stats, getQueueStats Scenario.offline = Returns stats.
Proof.
  split; [reflexivity|]. split; [reflexivity|]. split; [reflexivity|].
  by intros [stats Hstats].
Qed.

(** ** Scheduling times *)

Section Scheduling.

Context {Q : Type} `{!Bull.Queue Q}.

Implicit Types (st : State Q).

(** C2: a [scheduledTime] not later than the current time is rejected with
    'Scheduled time must be in the future' by [schedulePost], and the
    state returned is the state given: no entry is added to the in-memory
    map and nothing is enqueued on the durable queue, whichever backend is
    active.  The REST endpoint and the GraphQL mutation reject such a
    request before they reach [schedulePost], again without any change. *)
Theorem C2_schedule_rejects_non_future st now now' postData userId scheduledTime :
  date_le scheduledTime (ValidDate now) = true →
  schedulePost st now now' postData userId scheduledTime
  = (Throws (mkError "Scheduled time must be in the future"), st)
  ∧ (∀ validate parse now1 now2 content raw,
       newDate parse raw = scheduledTime →
       ∃ error info,
         Controller.scheduleNewPost validate parse st now now1 now2 userId content raw
         = (Controller.mkResponse 400 (Controller.ErrorBody error info), st))
  ∧ (∀ parse now1 now2 now3 user content raw,
       newDate parse raw = scheduledTime →
       ∃ err,
         Resolvers.schedulePost parse st now now1 now2 now3 user content raw
         = (Throws err, st)).
Proof.
  intros Hpast. split; [|split].
  - unfold schedulePost. by rewrite date_le_delay, Hpast.
  - intros validate parse now1 now2 content raw Hraw.
    unfold Controller.scheduleNewPost.
    destruct (validate content) as [details|]; [by eauto|].
    destruct (truthy raw); simpl; [|by eauto].
    rewrite Hraw, Hpast. by eauto.
  - intros parse now1 now2 now3 user content raw Hraw.
    unfold Resolvers.schedulePost. destruct user as [uid|]; [|by eauto].
    rewrite Hraw, Hpast. by eauto.
Qed.

End Scheduling.

Lemma C2_witness :
  date_le (ValidDate 995) (ValidDate 1000) = true
  ∧ schedulePost Scenario.firstCall.2 1000 1001 (mkPostData "late") 7 (ValidDate 995)
    = (Throws (mkError "Scheduled time must be in the future"),
       Scenario.firstCall.2).
Proof.
  split; [reflexivity|].
  apply (C2_schedule_rejects_non_future Scenario.firstCall.2 1000 1001
           (mkPostData "late") 7 (ValidDate 995)).
  reflexivity.
Defined.

(** ** The timer callback *)

Section TimerCallback.

Context {Q : Type} `{!Bull.Queue Q}.

Implicit Types (st : State Q).

(** Running a timer callback up to its [await]: the collaborator is called
    with the captured post data and user, whatever the map holds. *)
Lemma timerFires_calls_createPost st k t :
  timers st !! k = Some t →
  createPostCalls (timerFires st k)
  = createPostCalls st
      ++ [mkPostCall (timer_jobId t) (timer_postData t) (timer_userId t)]
  ∧ inFlight (timerFires st k) !! length (inFlight st) = Some t
  ∧ inMemoryJobs (timerFires st k) = inMemoryJobs st.
Proof.
  intros Ht. unfold timerFires. rewrite Ht. simpl. repeat split.
  by rewrite lookup_app_r, Nat.sub_diag by lia.
Qed.

(** C4: when the call of a fired callback to the Post collaborator
    succeeds, the map has no entry for the job afterwards.  When it fails,
    an entry still present is kept, with status 'failed' and the message
    of the error, its other fields as they were, and while the fallback is
    the active backend the listing of its owner shows it as failed; an entry
    cancelled in the meantime stays absent. *)
Theorem C4_timer_callback_outcome st k t :
  inFlight st !! k = Some t →
  inMemoryJobs (createPostSettles st k (Returns ())) !! timer_jobId t = None
  ∧ (∀ err job,
       inMemoryJobs st !! timer_jobId t = Some job →
       inMemoryJobs (createPostSettles st k (Throws err)) !! timer_jobId t
       = Some (mkJob (job_id job) (job_postData job) (job_userId job)
                 (job_scheduledTime job) Failed (job_createdAt job)
                 (Some (message err)))
       ∧ (durable st = None →
          ∃ views,
            getScheduledPosts (createPostSettles st k (Throws err))
              (job_userId job) = Returns views
            ∧ mkJobView (job_id job) (job_postData job) (job_scheduledTime job)
                Failed (job_createdAt job)
              ∈ views))
  ∧ (∀ err,
       inMemoryJobs st !! timer_jobId t = None →
       inMemoryJobs (createPostSettles st k (Throws err)) = inMemoryJobs st).
Proof.
  intros Ht. unfold createPostSettles. rewrite Ht. simpl. split; [|split].
  - apply lookup_delete_eq.
  - intros err job Hjob. rewrite Hjob.
    assert (Hkept : <[timer_jobId t := markFailed err job]> (inMemoryJobs st)
                    !! timer_jobId t = Some (markFailed err job))
      by apply lookup_insert_eq.
    split; [exact Hkept|].
    intros Hfallback. unfold getScheduledPosts, durable in *. simpl.
    rewrite Hfallback. eexists. split; [reflexivity|].
    apply list_elem_of_fmap.
    exists (markFailed err job). split; [done|].
    apply list_elem_of_filter. split; [done|].
    apply elem_of_values. by exists (timer_jobId t).
  - intros err Hgone. by rewrite Hgone.
Qed.

End TimerCallback.

Lemma C4_witness :
  job_status <$> inMemoryJobs (run initial Scenario.failedRun) !! "memory-job-1"
  = Some Failed
  ∧ job_error <$> inMemoryJobs (run initial Scenario.failedRun) !! "memory-job-1"
    = Some (Some "connection lost").
Proof.
  destruct (C4_timer_callback_outcome
              (run (initial (Q := ListQueue.t)) (take 3 Scenario.failedRun)) 0
              (mkTimer "memory-job-1" (mkPostData "hello") 7 (Finite 5000))
              eq_refl)
    as (_ & Hfail & _).
  destruct (Hfail (mkError "connection lost")
              (mkJob "memory-job-1" (mkPostData "hello") 7 (ValidDate 6000)
                 Scheduled (ValidDate 1001) None))
    as [Hkept _]; [by vm_compute|].
  change (run initial Scenario.failedRun)
    with (createPostSettles
            (run (initial (Q := ListQueue.t)) (take 3 Scenario.failedRun)) 0
            (Throws (mkError "connection lost"))).
  simpl timer_jobId in Hkept. rewrite Hkept. by split.
Defined.

(** ** Cancelling *)

Section Cancelling.

Context {Q : Type} `{!Bull.Queue Q}.

Implicit Types (st : State Q).

(** A cancellation never disarms a timer: on the fallback branch, the job
    just scheduled can be cancelled, its entry is gone, and its timer is
    still armed; when it fires, the collaborator is called for that job. *)
Lemma cancel_does_not_disarm_timer st now now' postData userId scheduledTime r st1 :
  durable st = None →
  schedulePost st now now' postData userId scheduledTime = (Returns r, st1) →
  ∃ st2,
    cancelScheduledPost st1 (sr_jobId r)
    = (Returns (mkCancelResult (sr_jobId r) Cancelled
                  "Scheduled post cancelled successfully (in-memory)"), st2)
    ∧ inMemoryJobs st2 !! sr_jobId r = None
    ∧ createPostCalls (timerFires st2 (length (timers st)))
      = createPostCalls st ++ [mkPostCall (sr_jobId r) postData userId].
Proof.
  intros Hfallback Hcall.
  destruct (schedulePost_fallback _ _ _ _ _ _ _ _ Hfallback Hcall)
    as (Hid & _ & _ & Hjobs & Htimers).
  assert (Hsame : durable st1 = None ∧ createPostCalls st1 = createPostCalls st).
  { revert Hcall. unfold schedulePost. rewrite Hfallback.
    destruct (le _ _); [done|]. by intros [= <- <-]. }
  destruct Hsame as [Hfallback1 Hcalls].
  eexists. unfold cancelScheduledPost. rewrite Hfallback1, Hjobs, Hid.
  rewrite lookup_insert_eq. split; [done|]. simpl. split.
  - apply lookup_delete_eq.
  - unfold timerFires. simpl. rewrite Htimers.
    rewrite lookup_app_r, Nat.sub_diag by lia. simpl. by rewrite Hcalls.
Qed.

(** An identifier of the fallback is always looked up in the in-memory
    map, also while the durable queue is active. *)
Lemma cancel_memory_job st n job :
  inMemoryJobs st !! memoryJobId n = Some job →
  cancelScheduledPost st (memoryJobId n)
  = (Returns (mkCancelResult (memoryJobId n) Cancelled
                "Scheduled post cancelled successfully (in-memory)"),
     set_jobs (delete (memoryJobId n) (inMemoryJobs st)) st).
Proof.
  intros Hjob. unfold cancelScheduledPost.
  rewrite memoryJobId_prefix, Hjob. by destruct (durable st).
Qed.

(** An identifier already issued by the counter and absent from the map
    stays absent: the entry of a cancelled job never comes back. *)
Lemma step_stays_absent st ev n :
  (n < jobIdCounter st)%N →
  inMemoryJobs st !! memoryJobId n = None →
  inMemoryJobs (step st ev) !! memoryJobId n = None.
Proof.
  intros Hissued Habsent.
  destruct ev as [o|now now' pd uid t|jobId|k|k o|job|q]; simpl.
  - destruct (initPending st); [|done]. by destruct o.
  - unfold schedulePost. destruct (le _ _); [done|].
    destruct (durable st) as [q|].
    + by destruct (Bull.add _ _ _ _ _ _) as [[q' job]|err].
    + simpl. rewrite lookup_insert_ne; [done|].
      intros Heq%memoryJobId_inj. lia.
  - destruct (cancelScheduledPost_store st jobId) as (_ & [-> | ->]); [done|].
    rewrite lookup_delete_None. by right.
  - unfold timerFires. by destruct (timers st !! k).
  - unfold createPostSettles. destruct (inFlight st !! k) as [t|]; [|done].
    simpl. destruct o as [[]|err]; simpl.
    + rewrite lookup_delete_None. by right.
    + destruct (inMemoryJobs st !! timer_jobId t) as [job|] eqn:Hjob; [|done].
      rewrite lookup_insert_ne; [done|]. congruence.
  - done.
  - by destruct (scheduledPostsQueue st).
Qed.

Lemma run_stays_absent st evs n :
  (n < jobIdCounter st)%N →
  inMemoryJobs st !! memoryJobId n = None →
  inMemoryJobs (run st evs) !! memoryJobId n = None.
Proof.
  revert st. induction evs as [|ev evs IH]; intros st Hissued Habsent; [done|].
  simpl. apply IH.
  - pose proof (step_counter st ev). lia.
  - by apply step_stays_absent.
Qed.

Lemma find_jobId_None (views : list JobView) (id : string) :
  List.find (λ job, String.eqb (jobId job) id) views = None
  ↔ ∀ v, v ∈ views → jobId v ≠ id.
Proof.
  split.
  - intros Hfind v Hin%list_elem_of_In.
    apply (find_none _ _ Hfind) in Hin. by apply String.eqb_neq.
  - intros Hall. destruct (List.find _ views) as [v|] eqn:Hfind; [|done].
    apply find_some in Hfind as [Hin Heq]. apply String.eqb_eq in Heq.
    apply list_elem_of_In in Hin. by destruct (Hall v Hin).
Qed.

(** On a reachable state with the fallback active, the listing of a user
    has a view with a given identifier exactly when the map holds an entry
    of that user under it. *)
Lemma listed_iff_owned st userId id views :
  reachable st → durable st = None →
  getScheduledPosts st userId = Returns views →
  (∃ v, v ∈ views ∧ jobId v = id)
  ↔ ∃ job, inMemoryJobs st !! id = Some job ∧ job_userId job = userId.
Proof.
  intros Hreach Hfallback Hviews.
  destruct (reachable_Inv st Hreach) as [_ Hid _ _]. split.
  - intros (v & Hv & <-).
    apply (elem_of_getScheduledPosts _ _ _ _ Hviews) in Hv.
    rewrite Hfallback in Hv. destruct Hv as (k & job & Hk & Huser & ->).
    exists job. split; [|done]. simpl. by rewrite (Hid k job Hk).
  - intros (job & Hjob & Huser). exists (viewOfJob job). split.
    + apply (elem_of_getScheduledPosts _ _ _ _ Hviews).
      rewrite Hfallback. by exists id, job.
    + simpl. by apply (Hid id job).
Qed.

(** With the fallback active, a job that has been cancelled has no view in
    any later listing, whatever happens in between. *)
Lemma cancelled_job_never_listed st jobId r st' evs userId views v :
  reachable st →
  (jobIdCounter st < MAX_EXACT)%N →
  durable st = None →
  cancelScheduledPost st jobId = (Returns r, st') →
  durable (run st' evs) = None →
  getScheduledPosts (run st' evs) userId = Returns views →
  v ∈ views →
  JobQueue.jobId v ≠ jobId.
Proof.
  intros Hreach Hsafe Hfallback Hcancel Hfallback' Hviews Hv Heq.
  assert (Hst' : st' = step st (EvCancel jobId)) by (simpl; by rewrite Hcancel).
  revert Hcancel. unfold cancelScheduledPost. rewrite Hfallback.
  destruct (inMemoryJobs st !! jobId) as [job|] eqn:Hjob; [|done].
  intros [= _ Hdel].
  destruct (inv_issued _ _ (reachable_Inv st Hreach) _ _ Hjob)
    as (n & -> & [Hn|Hmax]); [|lia].
  assert (Habsent : inMemoryJobs (run st' evs) !! memoryJobId n = None).
  { apply run_stays_absent; rewrite <- Hdel; simpl; [done|].
    apply lookup_delete_eq. }
  apply (elem_of_getScheduledPosts _ _ _ _ Hviews) in Hv.
  rewrite Hfallback' in Hv.
  destruct Hv as (k & job' & Hk & _ & ->).
  assert (Hinv : Inv (run st' evs)).
  { apply reachable_Inv, reachable_run. rewrite Hst'. by apply reachable_step. }
  simpl in Heq. rewrite (inv_id _ _ Hinv k job' Hk) in Heq. congruence.
Qed.

(** C5, as the code has it: [cancelScheduledPost] looks the identifier up
    in the store it routes the call to, which is the in-memory map for
    every identifier starting with 'memory-job-' even while the durable
    queue is active.  It throws 'Scheduled post not found' exactly when
    that store has no such job; otherwise it returns the identifier with
    status 'cancelled' (on the durable route when [job.remove()] goes
    through; a rejection of the lookup or of the removal is rethrown).
    The endpoint answers 404 exactly when the caller's listing has no job
    with the identifier, and 500 when the listing itself is rejected; on
    the fallback that is: 404 for no entry or an entry of another user,
    and otherwise 200 with the cancellation result. *)
Theorem C5_cancel_not_found_iff_absent_from_routed_store st jobId :
  ((durable st = None ∨ String.prefix "memory-job-" jobId = true) →
   ((cancelScheduledPost st jobId).1 = Throws notFound
    ↔ inMemoryJobs st !! jobId = None)
   ∧ (inMemoryJobs st !! jobId = None →
      cancelScheduledPost st jobId = (Throws notFound, st))
   ∧ (is_Some (inMemoryJobs st !! jobId) →
      cancelScheduledPost st jobId
      = (Returns (mkCancelResult jobId Cancelled
                    "Scheduled post cancelled successfully (in-memory)"),
         set_jobs (delete jobId (inMemoryJobs st)) st)))
  ∧ (∀ q, durable st = Some q → String.prefix "memory-job-" jobId = false →
     (Bull.getJob q jobId = Returns None →
      cancelScheduledPost st jobId = (Throws notFound, st))
     ∧ (∀ job q', Bull.getJob q jobId = Returns (Some job) →
                  Bull.remove q job = Returns q' →
        cancelScheduledPost st jobId
        = (Returns (mkCancelResult jobId Cancelled
                      "Scheduled post cancelled successfully"),
           set_queue (Some q') st))
     ∧ (∀ job err, Bull.getJob q jobId = Returns (Some job) →
                   Bull.remove q job = Throws err →
        cancelScheduledPost st jobId = (Throws err, st))
     ∧ (∀ err, Bull.getJob q jobId = Throws err →
        cancelScheduledPost st jobId = (Throws err, st)))
  ∧ (∀ userId, jobId ≠ EmptyString →
     (∀ views, getScheduledPosts st userId = Returns views →
        (Controller.code (Controller.cancelScheduledPostById st userId jobId).1
         = 404
         ↔ ∀ v, v ∈ views → JobQueue.jobId v ≠ jobId))
     ∧ (∀ err, getScheduledPosts st userId = Throws err →
        Controller.cancelScheduledPostById st userId jobId
        = (Controller.mkResponse 500
             (Controller.ErrorBody "Failed to cancel scheduled post"
                (Some (message err))),
           st)))
  ∧ (∀ userId, reachable st → durable st = None → jobId ≠ EmptyString →
     (Controller.code (Controller.cancelScheduledPostById st userId jobId).1 = 404
      ↔ ¬ ∃ job, inMemoryJobs st !! jobId = Some job ∧ job_userId job = userId)
     ∧ (∀ job, inMemoryJobs st !! jobId = Some job → job_userId job = userId →
        Controller.cancelScheduledPostById st userId jobId
        = (Controller.mkResponse 200
             (Controller.CancelledBody "Scheduled post cancelled successfully"
                (mkCancelResult jobId Cancelled
                   "Scheduled post cancelled successfully (in-memory)")),
           set_jobs (delete jobId (inMemoryJobs st)) st))).
Proof.
  assert (Hmem : (durable st = None ∨ String.prefix "memory-job-" jobId = true) →
    cancelScheduledPost st jobId
    = match inMemoryJobs st !! jobId with
      | None => (Throws notFound, st)
      | Some _ =>
          (Returns (mkCancelResult jobId Cancelled
                      "Scheduled post cancelled successfully (in-memory)"),
           set_jobs (delete jobId (inMemoryJobs st)) st)
      end).
  { unfold cancelScheduledPost. intros [-> | ->]; [done|].
    by destruct (durable st). }
  assert (Hendpoint : ∀ userId views, jobId ≠ EmptyString →
    getScheduledPosts st userId = Returns views →
    Controller.code (Controller.cancelScheduledPostById st userId jobId).1 = 404
    ↔ ∀ v, v ∈ views → JobQueue.jobId v ≠ jobId).
  { intros userId views Hid%String.eqb_neq Hviews.
    unfold Controller.cancelScheduledPostById.
    rewrite Hid, Hviews, <- find_jobId_None.
    destruct (List.find _ _) as [v|]; [|done].
    destruct (cancelScheduledPost st jobId) as [[result|err] st']; by split. }
  split; [|split; [|split]].
  - intros Hroute. rewrite (Hmem Hroute).
    destruct (inMemoryJobs st !! jobId) as [job|]; simpl.
    + repeat split; done.
    + repeat split; done.
  - intros q Hdurable Hprefix. unfold cancelScheduledPost.
    rewrite Hdurable, Hprefix. repeat split.
    + by intros ->.
    + by intros job q' -> ->.
    + by intros job err -> ->.
    + by intros err ->.
  - intros userId Hid. split.
    + intros views Hviews. by apply Hendpoint.
    + intros err Hthrows. unfold Controller.cancelScheduledPostById.
      apply String.eqb_neq in Hid as ->. by rewrite Hthrows.
  - intros userId Hreach Hfallback Hid.
    pose proof (getScheduledPosts_fallback st userId Hfallback) as Hviews.
    split.
    + rewrite (Hendpoint userId _ Hid Hviews),
        <- (listed_iff_owned st userId jobId _ Hreach Hfallback Hviews).
      split.
      * intros Hall (v & Hv & Heq). by apply (Hall v).
      * intros Hnone v Hv Heq. apply Hnone. by exists v.
    + intros job Hjob Huser. unfold Controller.cancelScheduledPostById.
      apply String.eqb_neq in Hid as ->. rewrite Hviews.
      destruct (List.find _ _) as [v|] eqn:Hfind.
      * rewrite (Hmem (or_introl Hfallback)), Hjob. done.
      * exfalso. rewrite find_jobId_None in Hfind.
        assert (Hlisted : ∃ v, v ∈ viewOfJob <$>
                                     filter (λ job, job_userId job = userId)
                                            (values (inMemoryJobs st))
                               ∧ JobQueue.jobId v = jobId)
          by (apply (listed_iff_owned st userId jobId _ Hreach Hfallback Hviews);
              eauto).
        destruct Hlisted as (v & Hv & Heq). by apply (Hfind v).
Qed.

End Cancelling.

Lemma C5_witness :
  durable Scenario.scheduled = None
  ∧ ((cancelScheduledPost Scenario.scheduled "memory-job-9").1 = Throws notFound
     ↔ inMemoryJobs Scenario.scheduled !! "memory-job-9" = None)
  ∧ cancelScheduledPost Scenario.scheduled "memory-job-1"
    = (Returns (mkCancelResult "memory-job-1" Cancelled
                  "Scheduled post cancelled successfully (in-memory)"),
       set_jobs (delete "memory-job-1" (inMemoryJobs Scenario.scheduled))
         Scenario.scheduled).
Proof.
  split; [reflexivity|]. split.
  - apply (proj1 (C5_cancel_not_found_iff_absent_from_routed_store
                    Scenario.scheduled "memory-job-9")).
    left. reflexivity.
  - apply (proj1 (C5_cancel_not_found_iff_absent_from_routed_store
                    Scenario.scheduled "memory-job-1")).
    + left. reflexivity.
    + exists (mkJob "memory-job-1" (mkPostData "hello") 7 (ValidDate 6000)
                Scheduled (ValidDate 1001) None).
      by vm_compute.
Defined.

(** C5 as stated fails once the durable queue has become active while a
    job scheduled during the probe is still in the in-memory map: the
    durable queue, which is the active backend, has no job with the
    identifier, and the cancellation succeeds instead of throwing
    'Scheduled post not found'. *)
Lemma C5_counterexample :
  durable Scenario.mixed = Some []
  ∧ Bull.getJob (Q := ListQueue.t) [] "memory-job-1" = Returns None
  ∧ (cancelScheduledPost Scenario.mixed "memory-job-1").1
    = Returns (mkCancelResult "memory-job-1" Cancelled
                 "Scheduled post cancelled successfully (in-memory)")
  ∧ ¬ ((cancelScheduledPost Scenario.mixed "memory-job-1").1 = Throws notFound
       ↔ Bull.getJob (Q := ListQueue.t) [] "memory-job-1" = Returns None).
Proof.
  split; [reflexivity|]. split; [reflexivity|]. split; [by vm_compute|].
  intros [_ Hthrows]. specialize (Hthrows eq_refl).
  vm_compute in Hthrows. discriminate.
Qed.

(** ** A cancelled job is still published *)

(** C1 at a concrete run of the fallback: the job is listed as scheduled,
    its cancellation succeeds and the listing becomes empty, no call to
    [Post.createPost] has been made yet; then the timer fires and
    [Post.createPost] is called for the cancelled job. *)
Theorem C1_cancelled_job_is_still_published :
  getScheduledPosts Scenario.scheduled 7
  = Returns [mkJobView "memory-job-1" (mkPostData "hello") (ValidDate 6000)
               Scheduled (ValidDate 1001)]
  ∧ cancelScheduledPost Scenario.scheduled "memory-job-1"
    = (Returns (mkCancelResult "memory-job-1" Cancelled
                  "Scheduled post cancelled successfully (in-memory)"),
       Scenario.cancelled)
  ∧ getScheduledPosts Scenario.cancelled 7 = Returns []
  ∧ createPostCalls Scenario.cancelled = []
  ∧ timers Scenario.cancelled
    = [mkTimer "memory-job-1" (mkPostData "hello") 7 (Finite 5000)]
  ∧ createPostCalls Scenario.fired
    = [mkPostCall "memory-job-1" (mkPostData "hello") 7].
Proof. repeat split; by vm_compute. Qed.

(** ** The one-year horizon *)

(** The REST endpoint rejects every time later than one year (365 days)
    after its reading of the clock, without any change of state. *)
Lemma scheduleNewPost_rejects_beyond_horizon {Q : Type} `{!Bull.Queue Q}
    validate parse (st : State Q) now now1 now2 userId content raw :
  date_gt (newDate parse raw) (TimeClip (now + Controller.ONE_YEAR_MS)) = true →
  ∃ error info,
    Controller.scheduleNewPost validate parse st now now1 now2 userId content raw
    = (Controller.mkResponse 400 (Controller.ErrorBody error info), st).
Proof.
  intros Hfar. unfold Controller.scheduleNewPost.
  destruct (validate content) as [details|]; [by eauto|].
  destruct (truthy raw); simpl; [|by eauto].
  destruct (date_le _ _); [by eauto|].
  rewrite Hfar. by eauto.
Qed.

(** C3 at a concrete request, two years ahead of the clock, with no
    durable backend: [schedulePost] accepts it, and so does the GraphQL
    mutation, which creates the job; the REST endpoint rejects the same
    time. *)
Theorem C3_horizon_enforced_by_rest_only :
  date_gt (ValidDate Scenario.twoYearsAhead)
    (ValidDate (Scenario.now + Controller.ONE_YEAR_MS)) = true
  ∧ (schedulePost Scenario.st0 Scenario.now Scenario.now (mkPostData "hello") 7
       (ValidDate Scenario.twoYearsAhead)).1
    = Returns (mkScheduleResult "memory-job-1" (ValidDate Scenario.twoYearsAhead)
                 Scheduled "Post scheduled successfully (in-memory)")
  ∧ (Resolvers.schedulePost Scenario.parseNothing Scenario.st0
       Scenario.now Scenario.now Scenario.now Scenario.now
       (Some 7%Z) "hello" (VNumber Scenario.twoYearsAhead)).1
    = Returns (mkJobView "memory-job-1" (mkPostData "hello")
                 (ValidDate Scenario.twoYearsAhead) Scheduled
                 (ValidDate Scenario.now))
  ∧ inMemoryJobs
      (Resolvers.schedulePost Scenario.parseNothing Scenario.st0
         Scenario.now Scenario.now Scenario.now Scenario.now
         (Some 7%Z) "hello" (VNumber Scenario.twoYearsAhead)).2
    !! "memory-job-1"
    = Some (mkJob "memory-job-1" (mkPostData "hello") 7
              (ValidDate Scenario.twoYearsAhead) Scheduled
              (ValidDate Scenario.now) None)
  ∧ Controller.scheduleNewPost Scenario.acceptAll Scenario.parseNothing
      Scenario.st0 Scenario.now Scenario.now Scenario.now
      7 "hello" (VNumber Scenario.twoYearsAhead)
    = (Controller.mkResponse 400
         (Controller.ErrorBody
            "Cannot schedule posts more than 1 year in advance" None),
       Scenario.st0).
Proof. repeat split; by vm_compute. Qed.

(** * Further properties *)

(** ** Reconnection delays and the mock client *)

(** X1: [retry_strategy] answers with a delay exactly when the error is
    not a refused connection, at most one hour has been spent retrying and
    at most ten attempts were made; the delay is then 100 ms per attempt,
    so it never exceeds 1000 ms and the 3000 ms cap is never what is
    returned. *)
Theorem X1_retry_strategy_delay (options : RedisConfig.RetryOptions) (ms : Z) :
  (RedisConfig.retry_strategy options = RedisConfig.RetryAfter ms
   ↔ RedisConfig.error_code options ≠ Some "ECONNREFUSED"
     ∧ (RedisConfig.total_retry_time options ≤ 3600000)%Z
     ∧ (RedisConfig.attempt options ≤ 10)%Z
     ∧ ms = (RedisConfig.attempt options * 100)%Z)
  ∧ (RedisConfig.retry_strategy options = RedisConfig.RetryAfter ms →
     (ms ≤ 1000)%Z ∧ ms ≠ 3000%Z).
Proof.
  assert (Hiff : RedisConfig.retry_strategy options = RedisConfig.RetryAfter ms
   ↔ RedisConfig.error_code options ≠ Some "ECONNREFUSED"
     ∧ (RedisConfig.total_retry_time options ≤ 3600000)%Z
     ∧ (RedisConfig.attempt options ≤ 10)%Z
     ∧ ms = (RedisConfig.attempt options * 100)%Z).
  { unfold RedisConfig.retry_strategy. case_bool_decide as Hcode.
    { split; [done|]. by intros [? _]. }
    destruct (Z.ltb_spec (1000 * 60 * 60) (RedisConfig.total_retry_time options))
      as [Htime|Htime].
    { split; [done|]. intros (_ & ? & _). lia. }
    destruct (Z.ltb_spec 10 (RedisConfig.attempt options)) as [Hatt|Hatt].
    { split; [done|]. intros (_ & _ & ? & _). lia. }
    split.
    - intros [= <-]. repeat split; try done; lia.
    - intros (_ & _ & _ & ->). f_equal. lia. }
  split; [exact Hiff|].
  intros (_ & _ & Hatt & ->)%Hiff. lia.
Qed.

Lemma X1_witness :
  RedisConfig.retry_strategy (RedisConfig.mkRetryOptions None 5000 10)
  = RedisConfig.RetryAfter 1000
  ∧ (1000 ≤ 1000)%Z.
Proof.
  split; [reflexivity|].
  apply (proj2 (X1_retry_strategy_delay
                  (RedisConfig.mkRetryOptions None 5000 10) 1000)).
  reflexivity.
Defined.

(** X2: on a [MockRedis], [get] after [set] of the same key gives the
    value set, also when the key held another value before, and the
    values of all other keys are as they were. *)
Theorem X2_mock_get_after_set (r : RedisConfig.MockRedis) (key value other : string) :
  (RedisConfig.set r key value).1 = "OK"
  ∧ RedisConfig.get (RedisConfig.set r key value).2 key = Some value
  ∧ (other ≠ key →
     RedisConfig.get (RedisConfig.set r key value).2 other
     = RedisConfig.get r other).
Proof.
  unfold RedisConfig.set, RedisConfig.get. simpl. repeat split.
  - apply lookup_insert_eq.
  - intros Hne. by apply lookup_insert_ne.
Qed.

Lemma X2_witness :
  RedisConfig.get
    (RedisConfig.set (RedisConfig.set RedisConfig.create "a" "1").2 "b" "2").2 "a"
  = Some "1".
Proof.
  rewrite (proj2 (proj2 (X2_mock_get_after_set
             (RedisConfig.set RedisConfig.create "a" "1").2 "b" "2" "a")));
    [|discriminate].
  apply (X2_mock_get_after_set RedisConfig.create "a" "1" "a").
Defined.

(** X3: [del] on a [MockRedis] answers 1 when the key was present and 0
    when it was not; afterwards the key is absent, so a second [del]
    answers 0, and the other keys are untouched.  Setting a key that was
    absent and deleting it again gives back the store as it was. *)
Theorem X3_mock_del (r : RedisConfig.MockRedis) (key value other : string) :
  ((RedisConfig.del r key).1 = 1%Z ↔ is_Some (RedisConfig.get r key))
  ∧ ((RedisConfig.del r key).1 = 0%Z ↔ RedisConfig.get r key = None)
  ∧ RedisConfig.get (RedisConfig.del r key).2 key = None
  ∧ (RedisConfig.del (RedisConfig.del r key).2 key).1 = 0%Z
  ∧ (other ≠ key →
     RedisConfig.get (RedisConfig.del r key).2 other = RedisConfig.get r other)
  ∧ (RedisConfig.get r key = None →
     RedisConfig.del (RedisConfig.set r key value).2 key = (1%Z, r)).
Proof.
  unfold RedisConfig.del, RedisConfig.get, RedisConfig.set. simpl.
  split; [|split; [|split; [|split; [|split]]]].
  - destruct (RedisConfig.data r !! key); split; try done; try by eauto.
  - by destruct (RedisConfig.data r !! key).
  - apply lookup_delete_eq.
  - by rewrite lookup_delete_eq.
  - intros Hne. by apply lookup_delete_ne.
  - intros Habsent. rewrite lookup_insert_eq, delete_insert_id by done.
    by destruct r.
Qed.

Lemma X3_witness :
  RedisConfig.del (RedisConfig.set RedisConfig.create "test_key" "test_value").2
    "test_key"
  = (1%Z, RedisConfig.create).
Proof.
  apply (X3_mock_del RedisConfig.create "test_key" "test_value" "test_key").
  reflexivity.
Defined.

(** ** Authentication *)

Lemma substring_all (s : string) : String.substring 0 (String.length s) s = s.
Proof. induction s as [|a s IH]; simpl; [done|]. by rewrite IH. Qed.

Lemma slice_append (p t : string) : Auth.slice (String.length p) (p ++ t) = t.
Proof.
  unfold Auth.slice. induction p as [|a p IH]; simpl.
  - rewrite Nat.sub_0_r. apply substring_all.
  - exact IH.
Qed.

Lemma slice_bearer (token : string) :
  Auth.slice 7 ("Bearer " ++ token) = token.
Proof. exact (slice_append "Bearer " token). Qed.

Lemma prefix_split (p s : string) :
  String.prefix p s = true → ∃ t, s = (p ++ t)%string.
Proof.
  revert s. induction p as [|a p IH]; intros s Hp; simpl in *.
  - by exists s.
  - destruct s as [|b s]; [done|]. simpl in Hp.
    destruct (Ascii.ascii_dec a b) as [->|]; [|done].
    destruct (IH s Hp) as [t ->]. by exists t.
Qed.

Section Authentication.

Variable verifyToken : string -> Outcome Z.
Variable getUserById : Z -> Outcome (option Auth.User).

(** What lets a request through [authenticateToken]. *)
Lemma authenticateToken_Next authHeader user :
  Auth.authenticateToken verifyToken getUserById authHeader = Auth.Next user
  ↔ ∃ token userId,
      authHeader = Some ("Bearer " ++ token)%string
      ∧ verifyToken token = Returns userId
      ∧ getUserById userId = Returns (Some user).
Proof.
  unfold Auth.authenticateToken. split.
  - destruct authHeader as [header|]; [|done].
    destruct (String.eqb header EmptyString); [done|].
    destruct (String.prefix "Bearer " header) eqn:Hprefix; [|done]. simpl.
    destruct (prefix_split _ _ Hprefix) as [token ->].
    rewrite slice_bearer.
    destruct (verifyToken token) as [userId|] eqn:Htoken; [|done].
    destruct (getUserById userId) as [[found|]|] eqn:Huser; try done.
    intros [= ->]. by exists token, userId.
  - intros (token & userId & -> & Htoken & Huser).
    rewrite (prefix_append "Bearer " token). simpl.
    rewrite slice_bearer, Htoken, Huser. done.
Qed.

Lemma authenticateToken_Respond authHeader r :
  Auth.authenticateToken verifyToken getUserById authHeader = Auth.Respond r →
  Controller.code r = 401.
Proof.
  unfold Auth.authenticateToken, Auth.unauthorized.
  repeat case_match; by intros [= <-].
Qed.

(** X4: [authenticateToken] calls [next()] exactly for a header made of
    'Bearer ' followed by a token that [verifyToken] accepts and whose user
    [getUserById] finds, and [req.user] is then that user; every other
    request is answered with status 401. *)
Theorem X4_authenticateToken_passes_iff authHeader :
  (∀ user,
     Auth.authenticateToken verifyToken getUserById authHeader = Auth.Next user
     ↔ ∃ token userId,
         authHeader = Some ("Bearer " ++ token)%string
         ∧ verifyToken token = Returns userId
         ∧ getUserById userId = Returns (Some user))
  ∧ ((∃ user, Auth.authenticateToken verifyToken getUserById authHeader
              = Auth.Next user)
     ∨ (∃ body, Auth.authenticateToken verifyToken getUserById authHeader
                = Auth.Respond (Controller.mkResponse 401 body))).
Proof.
  split; [intros user; apply authenticateToken_Next|].
  destruct (Auth.authenticateToken verifyToken getUserById authHeader)
    as [[code body]|user] eqn:Hauth; [right|left; by eauto].
  apply authenticateToken_Respond in Hauth. simpl in Hauth. subst code.
  by exists body.
Qed.

(** X5: [optionalAuth] never answers the request itself.  It sets
    [req.user] to the same user as [authenticateToken] whenever that one
    lets the request through, and it also accepts a bare token, without
    the 'Bearer ' prefix, which [authenticateToken] rejects. *)
Theorem X5_optionalAuth_never_rejects authHeader :
  (∃ user, Auth.optionalAuth verifyToken getUserById authHeader = Auth.Next user)
  ∧ (∀ user,
       Auth.authenticateToken verifyToken getUserById authHeader = Auth.Next user →
       Auth.optionalAuth verifyToken getUserById authHeader = Auth.Next (Some user))
  ∧ (∀ token userId user,
       authHeader = Some token →
       token ≠ EmptyString →
       String.prefix "Bearer " token = false →
       verifyToken token = Returns userId →
       getUserById userId = Returns (Some user) →
       Auth.optionalAuth verifyToken getUserById authHeader = Auth.Next (Some user)
       ∧ Auth.authenticateToken verifyToken getUserById authHeader
         = Auth.unauthorized "Authorization header must start with 'Bearer '").
Proof.
  split; [|split].
  - unfold Auth.optionalAuth. repeat case_match; by eauto.
  - intros user (token & userId & -> & Htoken & Huser)%authenticateToken_Next.
    unfold Auth.optionalAuth.
    rewrite (prefix_append "Bearer " token). simpl.
    by rewrite slice_bearer, Htoken, Huser.
  - intros token userId user -> Hne%String.eqb_neq Hbare Htoken Huser.
    unfold Auth.optionalAuth, Auth.authenticateToken.
    by rewrite Hne, Hbare, Htoken, Huser.
Qed.

End Authentication.

Lemma X5_witness :
  Auth.optionalAuth (λ _, Returns 7%Z) (λ userId, Returns (Some (Auth.mkUser userId)))
    (Some "abc")
  = Auth.Next (Some (Auth.mkUser 7))
  ∧ Auth.authenticateToken (λ _, Returns 7%Z)
      (λ userId, Returns (Some (Auth.mkUser userId))) (Some "abc")
    = Auth.unauthorized "Authorization header must start with 'Bearer '".
Proof.
  apply (proj2 (proj2 (X5_optionalAuth_never_rejects (λ _, Returns 7%Z)
           (λ userId, Returns (Some (Auth.mkUser userId))) (Some "abc")))
           "abc" 7%Z (Auth.mkUser 7));
    [reflexivity|discriminate|reflexivity|reflexivity|reflexivity].
Defined.

(** ** The routes *)

Section RouteProperties.

Context {Q : Type} `{!Bull.Queue Q}.

Variable verifyToken : string -> Outcome Z.
Variable getUserById : Z -> Outcome (option Auth.User).
Variable validate : string -> option string.
Variable parse : string -> Num.

Implicit Types (st : State Q).

(** X6: a request that [authenticateToken] does not let through is
    answered with its 401 by each of the four routes and leaves the
    scheduler as it was; so the scheduling and the cancelling route change
    the state only for a 'Bearer ' token that verifies to an existing user.
    The statistics route asks for nothing more than that: every
    authenticated user obtains the statistics of the whole queue when
    [getQueueStats] returns them, as it always does on the fallback, and a
    500 with its message when it throws. *)
Theorem X6_routes_need_authentication st now now1 now2 authHeader content
    scheduledTime jobId :
  (∀ r,
     Auth.authenticateToken verifyToken getUserById authHeader = Auth.Respond r →
     Controller.code r = 401
     ∧ Routes.postSchedule verifyToken getUserById validate parse st now now1 now2
         authHeader content scheduledTime = (r, st)
     ∧ Routes.getScheduled verifyToken getUserById st authHeader = (r, st)
     ∧ Routes.deleteScheduled verifyToken getUserById st authHeader jobId = (r, st)
     ∧ Routes.getAdminQueueStats verifyToken getUserById st authHeader = (r, st))
  ∧ ((Routes.postSchedule verifyToken getUserById validate parse st now now1 now2
        authHeader content scheduledTime).2 ≠ st
     ∨ (Routes.deleteScheduled verifyToken getUserById st authHeader jobId).2 ≠ st →
     ∃ token userId user,
       authHeader = Some ("Bearer " ++ token)%string
       ∧ verifyToken token = Returns userId
       ∧ getUserById userId = Returns (Some user))
  ∧ (∀ user,
       Auth.authenticateToken verifyToken getUserById authHeader = Auth.Next user →
       (∀ stats,
          getQueueStats st = Returns stats →
          Routes.getAdminQueueStats verifyToken getUserById st authHeader
          = (Controller.mkResponse 200
               (Controller.StatsBody "Queue statistics retrieved successfully"
                  stats),
             st))
       ∧ (∀ err,
            getQueueStats st = Throws err →
            Routes.getAdminQueueStats verifyToken getUserById st authHeader
            = (Controller.mkResponse 500
                 (Controller.ErrorBody "Failed to retrieve queue statistics"
                    (Some (message err))),
               st))
       ∧ (durable st = None →
          ∃ stats,
            Routes.getAdminQueueStats verifyToken getUserById st authHeader
            = (Controller.mkResponse 200
                 (Controller.StatsBody "Queue statistics retrieved successfully"
                    stats),
               st))).
Proof.
  unfold Routes.postSchedule, Routes.getScheduled, Routes.deleteScheduled,
    Routes.getAdminQueueStats, Routes.guarded.
  split; [|split].
  - intros r Hauth. rewrite Hauth. repeat split.
    by apply (authenticateToken_Respond verifyToken getUserById authHeader).
  - destruct (Auth.authenticateToken verifyToken getUserById authHeader)
      as [r|user] eqn:Hauth.
    + simpl. by intros [|].
    + intros _. apply authenticateToken_Next in Hauth.
      destruct Hauth as (token & userId & ?). by exists token, userId, user.
  - intros user ->. unfold Controller.getScheduleQueueStats.
    split; [by intros stats ->|]. split; [by intros err ->|].
    intros Hfallback. unfold getQueueStats. rewrite Hfallback. by eexists.
Qed.

End RouteProperties.

Lemma X6_witness :
  Routes.postSchedule (λ _, Throws (mkError "jwt malformed"))
    (λ userId, Returns (Some (Auth.mkUser userId)))
    Scenario.acceptAll Scenario.parseNothing Scenario.st0 1000 1000 1001
    (Some "Bearer forged") "hello" (VNumber 6000)
  = (Controller.mkResponse 401 (Controller.ErrorBody "Invalid token" None),
     Scenario.st0).
Proof.
  apply (proj1 (X6_routes_need_authentication
                  (λ _, Throws (mkError "jwt malformed"))
                  (λ userId, Returns (Some (Auth.mkUser userId)))
                  Scenario.acceptAll Scenario.parseNothing Scenario.st0
                  1000 1000 1001 (Some "Bearer forged") "hello" (VNumber 6000)
                  "memory-job-1")).
  reflexivity.
Defined.

(** ** Scheduling on the fallback, step by step *)

Section FallbackLifecycle.

Context {Q : Type} `{!Bull.Queue Q}.

Implicit Types (st : State Q).

(** The identifier the counter is about to issue is not in the map. *)
Lemma next_id_fresh st :
  reachable st → (jobIdCounter st < MAX_EXACT)%N →
  inMemoryJobs st !! memoryJobId (jobIdCounter st) = None.
Proof.
  intros Hreach Hsafe.
  destruct (inMemoryJobs st !! _) as [job|] eqn:Hjob; [|done].
  destruct (inv_issued _ _ (reachable_Inv st Hreach) _ _ Hjob)
    as (n & Hn%memoryJobId_inj & Hbound).
  lia.
Qed.

(** X7: after a scheduling on the fallback, the listing of every user is
    the listing from before, plus, for the scheduling user, the new job
    with its identifier, its post data, its time and status 'scheduled'. *)
Theorem X7_scheduled_job_is_listed st now now' postData userId scheduledTime r st' :
  reachable st →
  (jobIdCounter st < MAX_EXACT)%N →
  durable st = None →
  schedulePost st now now' postData userId scheduledTime = (Returns r, st') →
  ∀ user,
    ∃ before after,
      getScheduledPosts st user = Returns before
      ∧ getScheduledPosts st' user = Returns after
      ∧ ∀ v,
          v ∈ after
          ↔ (user = userId
             ∧ v = mkJobView (sr_jobId r) postData scheduledTime Scheduled
                     (ValidDate now'))
            ∨ v ∈ before.
Proof.
  intros Hreach Hsafe Hfallback Hcall user.
  pose proof (next_id_fresh st Hreach Hsafe) as Hfresh.
  destruct (schedulePost_fallback _ _ _ _ _ _ _ _ Hfallback Hcall)
    as (Hid & _ & _ & Hjobs & _).
  assert (Hfallback' : durable st' = None).
  { revert Hcall. unfold schedulePost. rewrite Hfallback.
    destruct (le _ _); [done|]. by intros [= _ <-]. }
  pose proof (getScheduledPosts_fallback st user Hfallback) as Hbefore.
  pose proof (getScheduledPosts_fallback st' user Hfallback') as Hafter.
  eexists _, _. split; [exact Hbefore|]. split; [exact Hafter|]. intros v.
  rewrite (elem_of_getScheduledPosts _ _ _ v Hbefore),
    (elem_of_getScheduledPosts _ _ _ v Hafter),
    Hfallback, Hfallback', Hjobs, Hid.
  split.
  - intros (k & job & Hk & Huser & ->).
    destruct (decide (k = memoryJobId (jobIdCounter st))) as [->|Hne].
    + rewrite lookup_insert_eq in Hk. injection Hk as <-. left. by split.
    + rewrite lookup_insert_ne in Hk by done. right. by exists k, job.
  - intros [[-> ->]|(k & job & Hk & Huser & ->)].
    + eexists _, _. split; [apply lookup_insert_eq|]. by split.
    + exists k, job. split; [|done].
      rewrite lookup_insert_ne; [done|]. congruence.
Qed.

(** X8: a job scheduled on the fallback whose timer fires and whose post
    is created leaves the map, the timers and the waiting callbacks as
    they were before the scheduling, and the Post collaborator has
    received exactly one more call, with the post data and the user of the
    job. *)
Theorem X8_published_job_leaves_no_trace st now now' postData userId
    scheduledTime r st' :
  reachable st →
  (jobIdCounter st < MAX_EXACT)%N →
  durable st = None →
  schedulePost st now now' postData userId scheduledTime = (Returns r, st') →
  let fired := timerFires st' (length (timers st)) in
  let settled := createPostSettles fired (length (inFlight st)) (Returns ()) in
  inMemoryJobs settled = inMemoryJobs st
  ∧ timers settled = timers st
  ∧ inFlight settled = inFlight st
  ∧ createPostCalls settled
    = createPostCalls st ++ [mkPostCall (sr_jobId r) postData userId].
Proof.
  intros Hreach Hsafe Hfallback Hcall.
  pose proof (next_id_fresh st Hreach Hsafe) as Hfresh.
  destruct (schedulePost_fallback _ _ _ _ _ _ _ _ Hfallback Hcall)
    as (Hid & _ & _ & Hjobs & Htimers).
  assert (Hrest : inFlight st' = inFlight st
                  ∧ createPostCalls st' = createPostCalls st).
  { revert Hcall. unfold schedulePost. rewrite Hfallback.
    destruct (le _ _); [done|]. by intros [= _ <-]. }
  destruct Hrest as [Hflight Hcalls].
  unfold timerFires. rewrite Htimers.
  rewrite lookup_app_r, Nat.sub_diag by lia. simpl.
  unfold createPostSettles. simpl. rewrite Hflight.
  rewrite lookup_app_r, Nat.sub_diag by lia. simpl.
  rewrite Hjobs, Hcalls, Hid. repeat split.
  - by apply delete_insert_id.
  - by rewrite delete_middle, app_nil_r.
  - by rewrite delete_middle, app_nil_r.
Qed.

(** X9: cancelling is not repeatable on the in-memory route: once a
    cancellation has succeeded there, a second one for the same identifier
    throws 'Scheduled post not found' and changes nothing. *)
Theorem X9_second_cancel_not_found st jobId r st' :
  durable st = None ∨ String.prefix "memory-job-" jobId = true →
  cancelScheduledPost st jobId = (Returns r, st') →
  cancelScheduledPost st' jobId = (Throws notFound, st').
Proof.
  intros Hroute. unfold cancelScheduledPost.
  assert (Hmem : ∀ s : State Q,
            durable s = durable st →
            match durable s, String.prefix "memory-job-" jobId with
            | Some _, false => False
            | _, _ => True
            end).
  { intros s ->. destruct Hroute as [-> | ->]; [done|]. by destruct (durable st). }
  pose proof (Hmem st eq_refl) as Hst.
  destruct (durable st) as [q|] eqn:Hdurable,
           (String.prefix "memory-job-" jobId) eqn:Hprefix; try done.
  all: destruct (inMemoryJobs st !! jobId) as [job|]; [|done].
  all: intros [= _ <-]; unfold durable in *; simpl.
  all: try rewrite Hdurable.
  all: by rewrite lookup_delete_eq.
Qed.

(** X10: neither [schedulePost] nor [cancelScheduledPost] ever calls the
    Post collaborator or resumes a waiting callback; a scheduling on the
    durable backend leaves the in-memory map, the counter and the timers
    alone, and one on the fallback leaves the durable queue alone. *)
Theorem X10_facade_frames st now now' postData userId scheduledTime jobId :
  createPostCalls (schedulePost st now now' postData userId scheduledTime).2
  = createPostCalls st
  ∧ inFlight (schedulePost st now now' postData userId scheduledTime).2
    = inFlight st
  ∧ createPostCalls (cancelScheduledPost st jobId).2 = createPostCalls st
  ∧ inFlight (cancelScheduledPost st jobId).2 = inFlight st
  ∧ (is_Some (durable st) →
     inMemoryJobs (schedulePost st now now' postData userId scheduledTime).2
     = inMemoryJobs st
     ∧ jobIdCounter (schedulePost st now now' postData userId scheduledTime).2
       = jobIdCounter st
     ∧ timers (schedulePost st now now' postData userId scheduledTime).2
       = timers st)
  ∧ (durable st = None →
     scheduledPostsQueue (schedulePost st now now' postData userId scheduledTime).2
     = scheduledPostsQueue st).
Proof.
  unfold schedulePost, cancelScheduledPost.
  repeat split; repeat case_match; simplify_eq; try done.
  all: try (by intros []%is_Some_None).
Qed.

End FallbackLifecycle.

Lemma first_call_spec :
  schedulePost Scenario.st0 1000 1001 (mkPostData "hello") 7 (ValidDate 6000)
  = (Returns Scenario.firstResult, Scenario.firstCall.2).
Proof. by vm_compute. Qed.

Lemma st0_reachable : reachable Scenario.st0.
Proof. by exists []. Qed.

Lemma st0_safe : (jobIdCounter Scenario.st0 < MAX_EXACT)%N.
Proof. by vm_compute. Qed.

Lemma X7_witness :
  ∃ after,
    getScheduledPosts Scenario.firstCall.2 7 = Returns after
    ∧ mkJobView "memory-job-1" (mkPostData "hello") (ValidDate 6000) Scheduled
        (ValidDate 1001)
      ∈ after.
Proof.
  destruct (X7_scheduled_job_is_listed _ _ _ _ _ _ _ _ st0_reachable st0_safe
              eq_refl first_call_spec 7)
    as (before & after & _ & Hafter & Hin).
  exists after. split; [exact Hafter|].
  apply Hin. left. by split.
Defined.

Lemma X8_witness :
  createPostCalls
    (createPostSettles (timerFires Scenario.firstCall.2 0) 0 (Returns ()))
  = [mkPostCall "memory-job-1" (mkPostData "hello") 7].
Proof.
  apply (X8_published_job_leaves_no_trace _ _ _ _ _ _ _ _ st0_reachable st0_safe
           eq_refl first_call_spec).
Defined.

Lemma X9_witness :
  cancelScheduledPost (run Scenario.firstCall.2 Scenario.between) "memory-job-1"
  = (Throws notFound, run Scenario.firstCall.2 Scenario.between).
Proof.
  apply (X9_second_cancel_not_found Scenario.firstCall.2 "memory-job-1"
           (mkCancelResult "memory-job-1" Cancelled
              "Scheduled post cancelled successfully (in-memory)")).
  - left. reflexivity.
  - by vm_compute.
Defined.

Lemma X10_witness :
  scheduledPostsQueue Scenario.firstCall.2 = scheduledPostsQueue Scenario.st0
  ∧ inMemoryJobs
      (schedulePost Scenario.mixed 1000 1001 (mkPostData "hello") 7
         (ValidDate 6000)).2
    = inMemoryJobs Scenario.mixed.
Proof.
  split.
  - apply (X10_facade_frames Scenario.st0 1000 1001 (mkPostData "hello") 7
             (ValidDate 6000) "memory-job-1").
    reflexivity.
  - apply (X10_facade_frames Scenario.mixed 1000 1001 (mkPostData "hello") 7
             (ValidDate 6000) "memory-job-1").
    by eexists.
Defined.

(** ** Statistics along the life of a fallback job *)

Lemma values_insert_fresh (m : gmap string Job) (k : string) (job : Job) :
  m !! k = None → values (<[k := job]> m) ≡ₚ job :: values m.
Proof. intros Hk. unfold values. by rewrite map_to_list_insert. Qed.

Lemma values_lookup (m : gmap string Job) (k : string) (job : Job) :
  m !! k = Some job → values m ≡ₚ job :: values (delete k m).
Proof. intros Hk. unfold values. by rewrite <- (map_to_list_delete m k job). Qed.

Lemma values_replace (m : gmap string Job) (k : string) (job job' : Job) :
  m !! k = Some job → values (<[k := job']> m) ≡ₚ job' :: values (delete k m).
Proof.
  intros Hk. rewrite <- (insert_delete_eq m k job').
  apply values_insert_fresh, lookup_delete_eq.
Qed.

Section Statistics.

Context {Q : Type} `{!Bull.Queue Q}.

Implicit Types (st : State Q).

(** X11: with the fallback active, scheduling a job adds one to [delayed]
    and to [total] and leaves [failed]; when the post creation of a job
    still listed as scheduled fails, one job moves from [delayed] to
    [failed] and [total] stays. *)
Theorem X11_stats_follow_jobs st :
  durable st = None →
  (∀ now now' postData userId scheduledTime r st',
     reachable st → (jobIdCounter st < MAX_EXACT)%N →
     schedulePost st now now' postData userId scheduledTime = (Returns r, st') →
     ∃ before after,
       getQueueStats st = Returns before
       ∧ getQueueStats st' = Returns after
       ∧ delayed after = S (delayed before)
       ∧ failed after = failed before
       ∧ total after = S (total before))
  ∧ (∀ k t err job,
       inFlight st !! k = Some t →
       inMemoryJobs st !! timer_jobId t = Some job →
       job_status job = Scheduled →
       ∃ before after,
         getQueueStats st = Returns before
         ∧ getQueueStats (createPostSettles st k (Throws err)) = Returns after
         ∧ S (delayed after) = delayed before
         ∧ failed after = S (failed before)
         ∧ total after = total before).
Proof.
  intros Hfallback. split.
  - intros now now' postData userId scheduledTime r st' Hreach Hsafe Hcall.
    pose proof (next_id_fresh st Hreach Hsafe) as Hfresh.
    destruct (schedulePost_fallback _ _ _ _ _ _ _ _ Hfallback Hcall)
      as (_ & _ & _ & Hjobs & _).
    assert (Hfallback' : durable st' = None).
    { revert Hcall. unfold schedulePost. rewrite Hfallback.
      destruct (le _ _); [done|]. by intros [= _ <-]. }
    unfold getQueueStats. rewrite Hfallback, Hfallback', Hjobs.
    eexists _, _. split; [reflexivity|]. split; [reflexivity|]. simpl.
    rewrite !(values_insert_fresh _ _ _ Hfresh), !filter_cons. simpl.
    repeat case_decide; try done.
  - intros k t err job Ht Hjob Hstatus.
    unfold getQueueStats, createPostSettles, durable in *. rewrite Ht. simpl.
    rewrite Hfallback, Hjob.
    eexists _, _. split; [reflexivity|]. split; [reflexivity|]. simpl.
    rewrite !(values_replace _ _ _ (markFailed err job) Hjob).
    rewrite !(values_lookup _ _ _ Hjob), !filter_cons. simpl. rewrite Hstatus.
    repeat case_decide; try done.
Qed.

End Statistics.

Lemma X11_witness :
  (∃ before after,
     getQueueStats Scenario.st0 = Returns before
     ∧ getQueueStats Scenario.firstCall.2 = Returns after
     ∧ delayed after = S (delayed before)
     ∧ failed after = failed before
     ∧ total after = S (total before))
  ∧ (∃ before after,
       getQueueStats (run initial (take 3 Scenario.failedRun)) = Returns before
       ∧ getQueueStats (run initial Scenario.failedRun) = Returns after
       ∧ S (delayed after) = delayed before
       ∧ failed after = S (failed before)
       ∧ total after = total before).
Proof.
  split.
  - apply (proj1 (X11_stats_follow_jobs Scenario.st0 eq_refl)
             1000%Z 1001%Z (mkPostData "hello") 7%Z (ValidDate 6000)
             Scenario.firstResult Scenario.firstCall.2
             st0_reachable st0_safe first_call_spec).
  - apply (proj2 (X11_stats_follow_jobs
                    (run initial (take 3 Scenario.failedRun)) eq_refl)
             0 (mkTimer "memory-job-1" (mkPostData "hello") 7 (Finite 5000))
             (mkError "connection lost")
             (mkJob "memory-job-1" (mkPostData "hello") 7 (ValidDate 6000)
                Scheduled (ValidDate 1001) None));
      by vm_compute.
Defined.

(** ** The backend in use *)

Section BackendChoice.

Context {Q : Type} `{!Bull.Queue Q}.

Implicit Types (st : State Q) (ev : Event Q).

Lemma durable_Some st q : durable st = Some q → scheduledPostsQueue st = Some q.
Proof. unfold durable. by destruct (isRedisAvailable st). Qed.

Lemma step_backend st ev :
  initPending st = false →
  initPending (step st ev) = false
  ∧ isRedisAvailable (step st ev) = isRedisAvailable st
  ∧ (is_Some (scheduledPostsQueue (step st ev))
     ↔ is_Some (scheduledPostsQueue st)).
Proof.
  intros Hdone.
  destruct ev as [o|now now' pd uid t|jobId|k|k o|job|q]; simpl.
  - by rewrite Hdone.
  - unfold schedulePost. destruct (le _ _); [done|].
    destruct (durable st) as [q|] eqn:Hq; [|done].
    destruct (Bull.add _ _ _ _ _ _) as [[q' job]|err]; [|done]. simpl.
    rewrite (durable_Some st q Hq). repeat split; try done; intros _; by eexists.
  - unfold cancelScheduledPost.
    destruct (durable st) as [q|] eqn:Hq,
             (String.prefix "memory-job-" jobId);
      try (by destruct (inMemoryJobs st !! jobId)).
    destruct (Bull.getJob q jobId) as [[job|]|]; [|done..].
    destruct (Bull.remove q job) as [q'|err]; [|done]. simpl.
    rewrite (durable_Some st q Hq). repeat split; try done; intros _; by eexists.
  - unfold timerFires. by case_match.
  - unfold createPostSettles. by case_match.
  - done.
  - destruct (scheduledPostsQueue st) as [q0|] eqn:Hq0; simpl; rewrite ?Hq0;
      repeat split; try done; intros _; by eexists.
Qed.

Lemma durable_is_Some st :
  is_Some (durable st)
  ↔ isRedisAvailable st = true ∧ is_Some (scheduledPostsQueue st).
Proof.
  unfold durable. destruct (isRedisAvailable st).
  - split; [done|]. by intros [_ ?].
  - split; [by intros []%is_Some_None|]. by intros [[=] _].
Qed.

Lemma cancelScheduledPost_timers st jobId :
  timers (cancelScheduledPost st jobId).2 = timers st.
Proof. unfold cancelScheduledPost. by repeat case_match. Qed.

Lemma run_backend st evs :
  initPending st = false →
  initPending (run st evs) = false
  ∧ (is_Some (durable (run st evs)) ↔ is_Some (durable st)).
Proof.
  revert st. induction evs as [|ev evs IH]; intros st Hdone; [done|].
  simpl. destruct (step_backend st ev Hdone) as (Hdone' & Havail & Hqueue).
  destruct (IH _ Hdone') as [Hfinal Hiff]. split; [done|].
  rewrite Hiff, !durable_is_Some, Havail, Hqueue. done.
Qed.

Lemma getQueueStats_type st stats :
  getQueueStats st = Returns stats →
  type stats = if durable st is Some _ then "redis" else "in-memory".
Proof.
  unfold getQueueStats. destruct (durable st) as [q|]; [|by intros [= <-]].
  destruct (Bull.getWaiting q) as [w|]; [|done].
  destruct (Bull.getActive q) as [a|]; [|done].
  destruct (Bull.getCompleted q) as [c|]; [|done].
  destruct (Bull.getFailed q) as [f|]; [|done].
  destruct (Bull.getDelayed q) as [d|]; [|done].
  by intros [= <-].
Qed.

(** X12: once [initializeQueue] has resumed there is no failover and no
    failback: whatever happens afterwards, the durable backend is the one
    in use exactly if it was the one in use right after initialisation,
    and the statistics, whenever they are returned, keep naming the same
    backend; on the fallback they are always returned. *)
Theorem X12_backend_is_fixed st evs :
  initPending st = false →
  initPending (run st evs) = false
  ∧ (is_Some (durable (run st evs)) ↔ is_Some (durable st))
  ∧ (∀ before after,
       getQueueStats st = Returns before →
       getQueueStats (run st evs) = Returns after →
       type after = type before)
  ∧ (durable st = None →
     ∃ before after,
       getQueueStats st = Returns before
       ∧ getQueueStats (run st evs) = Returns after
       ∧ type before = "in-memory"
       ∧ type after = "in-memory").
Proof.
  intros Hdone. destruct (run_backend st evs Hdone) as [Hfinal Hiff].
  assert (Hsame : (if durable (run st evs) is Some _ then "redis" else "in-memory")
                  = (if durable st is Some _ then "redis" else "in-memory")).
  { destruct (durable (run st evs)) as [q'|] eqn:Hafter,
             (durable st) as [q|] eqn:Hbefore; try done.
    - assert (Hsome : is_Some (Some q')) by (by eexists).
      apply Hiff in Hsome. by destruct Hsome.
    - assert (Hsome : is_Some (Some q)) by (by eexists).
      apply Hiff in Hsome. by destruct Hsome. }
  split; [done|]. split; [done|]. split.
  - intros before after Hbefore Hafter.
    by rewrite (getQueueStats_type _ _ Hbefore), (getQueueStats_type _ _ Hafter).
  - intros Hfallback.
    assert (Hfallback' : durable (run st evs) = None).
    { destruct (durable (run st evs)) as [q'|] eqn:Hafter; [|done].
      assert (Hsome : is_Some (Some q')) by (by eexists).
      apply Hiff in Hsome. rewrite Hfallback in Hsome. by destruct Hsome. }
    unfold getQueueStats. rewrite Hfallback, Hfallback'. by eexists _, _.
Qed.

(** X13: while the durable backend is in use, no fallback job is created
    any more: the counter and the armed timers only stay or shrink, and
    every entry found in the in-memory map later was there already. *)
Theorem X13_fallback_store_only_drains st evs :
  initPending st = false →
  is_Some (durable st) →
  jobIdCounter (run st evs) = jobIdCounter st
  ∧ (length (timers (run st evs)) ≤ length (timers st))%nat
  ∧ ∀ k, is_Some (inMemoryJobs (run st evs) !! k) → is_Some (inMemoryJobs st !! k).
Proof.
  revert st. induction evs as [|ev evs IH]; intros st Hdone Hdurable; [done|].
  simpl. destruct (step_backend st ev Hdone) as (Hdone' & Havail & Hqueue).
  assert (Hdurable' : is_Some (durable (step st ev))).
  { apply durable_is_Some. rewrite Havail, Hqueue. by apply durable_is_Some. }
  destruct (IH _ Hdone' Hdurable') as (Hc & Ht & Hk).
  assert (Hstep : jobIdCounter (step st ev) = jobIdCounter st
                  ∧ (length (timers (step st ev)) ≤ length (timers st))%nat
                  ∧ ∀ k, is_Some (inMemoryJobs (step st ev) !! k)
                         → is_Some (inMemoryJobs st !! k)).
  { destruct Hdurable as [q Hq].
    destruct ev as [o|now now' pd uid t|jobId|k|k o|job|q']; simpl.
    - by rewrite Hdone.
    - unfold schedulePost. rewrite Hq. destruct (le _ _); [done|].
      by destruct (Bull.add _ _ _ _ _ _) as [[q' job]|err].
    - rewrite cancelScheduledPost_timers.
      destruct (cancelScheduledPost_store st jobId) as (-> & [-> | ->]);
        repeat split; try done.
      intros k. rewrite lookup_delete_is_Some. by intros [_ ?].
    - unfold timerFires. destruct (timers st !! k) eqn:Hk'; [|done]. simpl.
      repeat split; try done. rewrite length_delete by eauto. lia.
    - unfold createPostSettles. destruct (inFlight st !! k) as [t|]; [|done].
      simpl. repeat split; try done. intros k'.
      destruct o as [[]|err]; simpl.
      + rewrite lookup_delete_is_Some. by intros [_ ?].
      + destruct (inMemoryJobs st !! timer_jobId t) as [job|] eqn:Hjob; [|done].
        destruct (decide (timer_jobId t = k')) as [<-|Hne].
        * by rewrite Hjob.
        * by rewrite lookup_insert_ne.
    - done.
    - by case_match. }
  destruct Hstep as (Hc' & Ht' & Hk').
  repeat split; [congruence|lia|auto].
Qed.

End BackendChoice.

Lemma X12_witness :
  is_Some (durable (run Scenario.mixed [EvCancel "memory-job-1"])).
Proof.
  destruct (X12_backend_is_fixed Scenario.mixed [EvCancel "memory-job-1"] eq_refl)
    as (_ & Hiff & _).
  apply Hiff. by eexists.
Defined.

Lemma X13_witness :
  jobIdCounter
    (run Scenario.mixed
       [EvSchedule 2000 2001 (mkPostData "world") 8 (ValidDate 9000)])
  = jobIdCounter Scenario.mixed.
Proof.
  assert (Hdurable : is_Some (durable Scenario.mixed)) by (by eexists).
  exact (proj1 (X13_fallback_store_only_drains Scenario.mixed
           [EvSchedule 2000 2001 (mkPostData "world") 8 (ValidDate 9000)]
           eq_refl Hdurable)).
Defined.

(** ** At most one publication per fallback job *)

Section Publication.

Context {Q : Type} `{!Bull.Queue Q}.

Implicit Types (st : State Q) (ev : Event Q).

Lemma publishedOnce_step st ev :
  ordinary ev →
  (jobIdCounter (step st ev) < MAX_EXACT)%N →
  publishedOnce st → publishedOnce (step st ev).
Proof.
  intros Hord Hsafe [Hnodup Hissued].
  destruct ev as [o|now now' pd uid t|jobId|k|k o|job|q]; simpl in *.
  - destruct (initPending st); [|done]. by destruct o.
  - revert Hsafe. unfold schedulePost. destruct (le _ _); [done|].
    destruct (durable st) as [q|].
    { by destruct (Bull.add _ _ _ _ _ _) as [[q' job]|err]. }
    simpl. intros Hsafe.
    assert (Hc : (jobIdCounter st < MAX_EXACT)%N).
    { pose proof (incr_mono (jobIdCounter st)). lia. }
    rewrite incr_exact in * by done.
    unfold publishedOnce, armed, memoryCalls. simpl.
    rewrite fmap_app, app_assoc. simpl. split.
    + apply NoDup_app. split; [done|]. split; [|apply NoDup_singleton].
      intros id Hin ->%list_elem_of_singleton.
      rewrite Forall_forall in Hissued.
      destruct (Hissued _ Hin) as (n & Hn%memoryJobId_inj & Hlt). lia.
    + apply Forall_app. split.
      * eapply Forall_impl; [exact Hissued|]. simpl.
        intros id (n & -> & Hlt). exists n. split; [done|lia].
      * apply Forall_singleton. exists (jobIdCounter st). split; [done|lia].
  - unfold publishedOnce, armed, memoryCalls in *.
    rewrite cancelScheduledPost_timers.
    destruct (cancelScheduledPost_store st jobId) as [-> _].
    replace (createPostCalls (cancelScheduledPost st jobId).2)
      with (createPostCalls st); [done|].
    unfold cancelScheduledPost. by repeat case_match.
  - unfold timerFires in *. destruct (timers st !! k) as [t|] eqn:Ht; [|done].
    assert (Hk : (timer_jobId <$> timers st) !! k = Some (timer_jobId t)).
    { by rewrite list_lookup_fmap, Ht. }
    assert (Hmem : isMemoryJobId (timer_jobId t)).
    { rewrite Forall_forall in Hissued.
      destruct (Hissued (timer_jobId t)) as (n & -> & _).
      - apply elem_of_app. right. by eapply list_elem_of_lookup_2.
      - apply memoryJobId_prefix. }
    unfold publishedOnce, memoryCalls, armed in *. simpl.
    rewrite fmap_app, filter_app. simpl.
    rewrite filter_cons, decide_True, filter_nil by done.
    assert (Hperm : (filter isMemoryJobId (call_jobId <$> createPostCalls st)
                       ++ [timer_jobId t])
                      ++ (timer_jobId <$> delete k (timers st))
                    ≡ₚ filter isMemoryJobId (call_jobId <$> createPostCalls st)
                         ++ (timer_jobId <$> timers st)).
    { rewrite list_fmap_delete, <- app_assoc. apply Permutation_app_head. simpl.
      symmetry. by apply delete_Permutation. }
    split; by rewrite Hperm.
  - unfold createPostSettles. by destruct (inFlight st !! k).
  - unfold publishedOnce, memoryCalls, armed, processJob in *. simpl.
    rewrite fmap_app, filter_app. simpl.
    rewrite filter_cons, decide_False, filter_nil, app_nil_r; [done|].
    unfold isMemoryJobId. by rewrite Hord.
  - by destruct (scheduledPostsQueue st).
Qed.

(** X14: in a run from module load in which the durable processor is not
    started on a job with a fallback identifier, and while the counter is
    in its exact range, no fallback job has [Post.createPost] called for it
    twice, and none has it called while its timer is still armed. *)
Theorem X14_published_at_most_once (evs : list (Event Q)) :
  Forall ordinary evs →
  (jobIdCounter (run initial evs) < MAX_EXACT)%N →
  NoDup (memoryCalls (run initial evs) ++ armed (run initial evs)).
Proof.
  assert (Hrun : ∀ evs st,
            Forall ordinary evs →
            (jobIdCounter (run st evs) < MAX_EXACT)%N →
            publishedOnce st → publishedOnce (run st evs)).
  { clear evs. induction evs as [|ev evs IH]; intros st Hord Hsafe Hst; [done|].
    apply Forall_cons in Hord as [Hev Hord]. simpl in *.
    apply IH; [done..|]. apply publishedOnce_step; [done| |done].
    pose proof (run_counter (step st ev) evs). lia. }
  intros Hord Hsafe. apply (Hrun evs initial Hord Hsafe).
  split; [apply NoDup_nil_2|apply Forall_nil_2].
Qed.

End Publication.

Lemma X14_witness :
  Forall ordinary Scenario.failedRun
  ∧ NoDup (memoryCalls (run initial Scenario.failedRun)
           ++ armed (run initial Scenario.failedRun)).
Proof.
  assert (Hord : Forall ordinary Scenario.failedRun)
    by (repeat constructor).
  split; [exact Hord|].
  apply (X14_published_at_most_once Scenario.failedRun Hord). by vm_compute.
Defined.

(** ** What the scheduling endpoints accept *)

Section Acceptance.

Context {Q : Type} `{!Bull.Queue Q}.

Variable validate : string -> option string.
Variable parse : string -> Num.

Implicit Types (st : State Q).

(** X15: the date test never rejects an Invalid Date.  On the fallback
    [schedulePost] returns a job with status 'scheduled' for it and arms a
    timer whose delay is NaN, and the REST endpoint answers 201 to valid
    content with a time that does not parse, or with a number beyond the
    range of dates, however far in the past or the future.  On the durable
    backend the Invalid Date reaches [queue.add] with a NaN delay, and the
    outcome is that of [queue.add]. *)
Theorem X15_invalid_date_is_accepted st now now' postData userId :
  (durable st = None →
   ∃ r st',
     schedulePost st now now' postData userId InvalidDate = (Returns r, st')
     ∧ sr_status r = Scheduled
     ∧ timers st'
       = timers st
           ++ [mkTimer (memoryJobId (jobIdCounter st)) postData userId NaN])
  ∧ (∀ q, durable st = Some q →
     (∀ q' job,
        Bull.add q "createPost" postData userId NaN (redisJobId userId now')
        = Returns (q', job) →
        schedulePost st now now' postData userId InvalidDate
        = (Returns (mkScheduleResult (Bull.id job) InvalidDate Scheduled
                      "Post scheduled successfully"),
           set_queue (Some q') st))
     ∧ (∀ err,
          Bull.add q "createPost" postData userId NaN (redisJobId userId now')
          = Throws err →
          schedulePost st now now' postData userId InvalidDate
          = (Throws err, st)))
  ∧ (∀ now1 now2 content raw,
       durable st = None →
       validate content = None →
       truthy raw = true →
       newDate parse raw = InvalidDate →
       Controller.code
         (Controller.scheduleNewPost validate parse st now now1 now2 userId
            content raw).1 = 201)
  ∧ (∀ now1 now2 content n,
       durable st = None →
       validate content = None →
       (MAX_TIME < Z.abs n)%Z →
       Controller.code
         (Controller.scheduleNewPost validate parse st now now1 now2 userId
            content (VNumber n)).1 = 201).
Proof.
  assert (Hrest : ∀ now1 now2 content raw,
            durable st = None →
            validate content = None → truthy raw = true →
            newDate parse raw = InvalidDate →
            Controller.code
              (Controller.scheduleNewPost validate parse st now now1 now2 userId
                 content raw).1 = 201).
  { intros now1 now2 content raw Hfallback Hvalid Htruthy Hinvalid.
    unfold Controller.scheduleNewPost. rewrite Hvalid, Htruthy, Hinvalid. simpl.
    unfold schedulePost. simpl. by rewrite Hfallback. }
  split; [|split; [|split; [exact Hrest|]]].
  - intros Hfallback. unfold schedulePost. simpl. rewrite Hfallback.
    by eexists _, _.
  - intros q Hq. unfold schedulePost. simpl. rewrite Hq. split.
    + by intros q' job ->.
    + by intros err ->.
  - intros now1 now2 content n Hfallback Hvalid Hrange.
    apply Hrest; [done..| |].
    + simpl. destruct (Z.eqb_spec n 0); [|done]. subst n. unfold MAX_TIME in *. lia.
    + simpl. unfold TimeClip. destruct (Z.leb_spec (Z.abs n) MAX_TIME); [lia|done].
Qed.

(** X16: the REST endpoint answers 201, 400 or 500, and only a 201 goes
    with a change of state.  A 201 requires valid content and a time that
    is given, neither at or before the controller's clock nor beyond one
    year of it, and not at or before the clock read again inside
    [schedulePost]; when only this last test fails, the answer is 500
    'Failed to schedule post', not 400.  On the fallback these conditions
    are also sufficient; on the durable backend the request is then handed
    to [queue.add], whose rejection gives a 500 with its message. *)
Theorem X16_scheduleNewPost_answers st now now1 now2 userId content raw :
  let answer :=
    Controller.scheduleNewPost validate parse st now now1 now2 userId content raw in
  let accepted :=
    validate content = None
    ∧ truthy raw = true
    ∧ date_le (newDate parse raw) (ValidDate now) = false
    ∧ date_gt (newDate parse raw) (TimeClip (now + Controller.ONE_YEAR_MS)) = false in
  (Controller.code answer.1 = 201
   ∨ Controller.code answer.1 = 400
   ∨ Controller.code answer.1 = 500)
  ∧ (Controller.code answer.1 ≠ 201 → answer.2 = st)
  ∧ (Controller.code answer.1 = 201 →
     accepted ∧ date_le (newDate parse raw) (ValidDate now1) = false)
  ∧ (accepted ∧ date_le (newDate parse raw) (ValidDate now1) = true →
     answer
     = (Controller.mkResponse 500
          (Controller.ErrorBody "Failed to schedule post"
             (Some "Scheduled time must be in the future")),
        st))
  ∧ (durable st = None →
     (Controller.code answer.1 = 201
      ↔ accepted ∧ date_le (newDate parse raw) (ValidDate now1) = false)
     ∧ (Controller.code answer.1 = 500
        ↔ accepted ∧ date_le (newDate parse raw) (ValidDate now1) = true))
  ∧ (∀ q, durable st = Some q →
     accepted → date_le (newDate parse raw) (ValidDate now1) = false →
     (∀ q' job,
        Bull.add q "createPost" (mkPostData content) userId
          (sub (getTime (newDate parse raw)) (Finite now1))
          (redisJobId userId now2)
        = Returns (q', job) →
        answer
        = (Controller.mkResponse 201
             (Controller.ScheduledBody "Post scheduled successfully" (Bull.id job)
                (newDate parse raw) Scheduled (mkPostData content)),
           set_queue (Some q') st))
     ∧ (∀ err,
          Bull.add q "createPost" (mkPostData content) userId
            (sub (getTime (newDate parse raw)) (Finite now1))
            (redisJobId userId now2)
          = Throws err →
          answer
          = (Controller.mkResponse 500
               (Controller.ErrorBody "Failed to schedule post"
                  (Some (message err))),
             st))).
Proof.
  simpl. unfold Controller.scheduleNewPost.
  change (ofNum (plus (Finite now) (Finite Controller.ONE_YEAR_MS)))
    with (TimeClip (now + Controller.ONE_YEAR_MS)).
  destruct (validate content) as [details|]; simpl.
  { repeat split; try done; try (by auto);
      try (intros [(? & ? & ? & ?) ?]; congruence);
      intros; by intuition congruence. }
  destruct (truthy raw); simpl.
  2: { repeat split; try done; try (by auto);
         try (intros [(? & ? & ? & ?) ?]; congruence);
         intros; by intuition congruence. }
  destruct (date_le (newDate parse raw) (ValidDate now)); simpl.
  { repeat split; try done; try (by auto);
      try (intros [(? & ? & ? & ?) ?]; congruence);
      intros; by intuition congruence. }
  destruct (date_gt (newDate parse raw) _); simpl.
  { repeat split; try done; try (by auto);
      try (intros [(? & ? & ? & ?) ?]; congruence);
      intros; by intuition congruence. }
  unfold schedulePost. rewrite date_le_delay.
  destruct (date_le (newDate parse raw) (ValidDate now1)); simpl.
  { repeat split; try done; try (by auto);
      try (intros [(? & ? & ? & ?) ?]; congruence);
      intros; by intuition congruence. }
  destruct (durable st) as [q|].
  - destruct (Bull.add _ _ _ _ _ _) as [[q' job]|err] eqn:Hadd; simpl.
    + repeat split; try done; try (by auto);
        try (intros [(? & ? & ? & ?) ?]; congruence);
        intros; simplify_eq; congruence.
    + repeat split; try done; try (by auto);
        try (intros [(? & ? & ? & ?) ?]; congruence);
        intros; simplify_eq; congruence.
  - simpl. repeat split; try done; try (by auto);
      try (intros [(? & ? & ? & ?) ?]; congruence);
      intros; by simplify_eq.
Qed.

End Acceptance.

Lemma X15_witness :
  Controller.code
    (Controller.scheduleNewPost Scenario.acceptAll Scenario.parseNothing
       Scenario.st0 Scenario.now Scenario.now Scenario.now 7 "hello"
       (VString "tomorrow")).1 = 201
  ∧ Controller.code
      (Controller.scheduleNewPost Scenario.acceptAll Scenario.parseNothing
         Scenario.st0 Scenario.now Scenario.now Scenario.now 7 "hello"
         (VNumber (-10000000000000000))).1 = 201.
Proof.
  destruct (X15_invalid_date_is_accepted Scenario.acceptAll Scenario.parseNothing
              Scenario.st0 Scenario.now Scenario.now (mkPostData "hello") 7)
    as (_ & _ & Hparse & Hrange).
  split.
  - by apply Hparse.
  - apply Hrange; [reflexivity..|]. by vm_compute.
Defined.

Lemma X16_witness :
  Controller.scheduleNewPost Scenario.acceptAll Scenario.parseNothing
    Scenario.st0 1000 6000 6000 7 "hello" (VNumber 6000)
  = (Controller.mkResponse 500
       (Controller.ErrorBody "Failed to schedule post"
          (Some "Scheduled time must be in the future")),
     Scenario.st0).
Proof.
  destruct (X16_scheduleNewPost_answers Scenario.acceptAll Scenario.parseNothing
              Scenario.st0 1000 6000 6000 7 "hello" (VNumber 6000))
    as (_ & _ & _ & Hrace & _).
  apply Hrace. by vm_compute.
Defined.

(** ** The GraphQL mutations next to the REST endpoints *)

Section Siblings.

Context {Q : Type} `{!Bull.Queue Q}.

Variable validate : string -> option string.
Variable parse : string -> Num.

Implicit Types (st : State Q).

(** X17: the GraphQL mutations and the REST endpoints act alike on the
    scheduler.  Cancelling leaves the same state through either, and the
    mutation returns [true] exactly when the endpoint answers 200;
    whatever the REST endpoint schedules, the mutation schedules too, with
    the same identifier and the same resulting state.  Without a user the
    mutations throw 'Not authenticated' and change nothing. *)
Theorem X17_graphql_agrees_with_rest st userId jobId :
  (jobId ≠ EmptyString →
   (Resolvers.cancelScheduledPost st (Some userId) jobId).2
   = (Controller.cancelScheduledPostById st userId jobId).2
   ∧ ((Resolvers.cancelScheduledPost st (Some userId) jobId).1 = Returns true
      ↔ Controller.code (Controller.cancelScheduledPostById st userId jobId).1
        = 200))
  ∧ (∀ now now1 now2 now3 content raw message id time status postData st',
       Controller.scheduleNewPost validate parse st now now1 now2 userId content raw
       = (Controller.mkResponse 201
            (Controller.ScheduledBody message id time status postData), st') →
       Resolvers.schedulePost parse st now now1 now2 now3 (Some userId) content raw
       = (Returns (mkJobView id postData time status (ValidDate now3)), st'))
  ∧ (∀ now now1 now2 now3 content raw,
       Resolvers.schedulePost parse st now now1 now2 now3 None content raw
       = (Throws (mkError "Not authenticated"), st))
  ∧ Resolvers.cancelScheduledPost st None jobId
    = (Throws (mkError "Not authenticated"), st).
Proof.
  split; [|split; [|split]]; try done.
  - intros Hid%String.eqb_neq.
    unfold Resolvers.cancelScheduledPost, Controller.cancelScheduledPostById.
    rewrite Hid.
    destruct (getScheduledPosts st userId) as [views|err]; [|by split].
    destruct (List.find _ _) as [v|]; [|by split].
    destruct (cancelScheduledPost st jobId) as [[result|err] st1]; by split.
  - intros now now1 now2 now3 content raw message id time status postData st'.
    unfold Controller.scheduleNewPost, Resolvers.schedulePost.
    destruct (validate content); [done|].
    destruct (truthy raw); simpl; [|done].
    destruct (date_le (newDate parse raw) (ValidDate now)); [done|].
    destruct (date_gt _ _); [done|].
    destruct (schedulePost st now1 now2 _ userId _) as [[result|err] st1];
      intros Heq; by simplify_eq.
Qed.

End Siblings.

Lemma X17_witness :
  (Resolvers.cancelScheduledPost Scenario.firstCall.2 (Some 7%Z) "memory-job-1").2
  = (Controller.cancelScheduledPostById Scenario.firstCall.2 7 "memory-job-1").2.
Proof.
  apply (proj1 (X17_graphql_agrees_with_rest Scenario.acceptAll
                  Scenario.parseNothing Scenario.firstCall.2 7 "memory-job-1")).
  discriminate.
Defined.

(** ** The durable listing and the startup decision *)

Section Durable.

Context {Q : Type} `{!Bull.Queue Q}.

Implicit Types (st : State Q) (ev : Event Q).

(** X18: on the durable backend, a listed job that no worker has picked
    up yet (its [processedOn] is undefined) is shown with an Invalid Date
    as [scheduledTime], whatever time it was scheduled for; its status is
    'scheduled' exactly when its delay is a positive number, and
    'processing' otherwise. *)
Theorem X18_durable_listing_view st q userId views v :
  durable st = Some q →
  getScheduledPosts st userId = Returns views →
  v ∈ views →
  ∃ jobs job,
    Bull.getJobs q ["delayed"; "waiting"] = Returns jobs
    ∧ job ∈ jobs
    ∧ Bull.data_userId job = userId
    ∧ jobId v = Bull.id job
    ∧ (Bull.processedOn job = None → scheduledTime v = InvalidDate)
    ∧ (status v = Scheduled ↔ gt (Bull.opts_delay job) (Finite 0) = true)
    ∧ (status v = Processing ↔ gt (Bull.opts_delay job) (Finite 0) = false).
Proof.
  intros Hq Hviews Hv.
  apply (elem_of_getScheduledPosts _ _ _ v Hviews) in Hv. rewrite Hq in Hv.
  destruct Hv as (jobs & job & Hjobs & Hin & Huser & ->). exists jobs, job.
  repeat split; try done; simpl.
  - by intros ->.
  - by destruct (gt _ _).
  - by destruct (gt _ _).
  - by destruct (gt _ _).
  - by destruct (gt _ _).
Qed.

Lemma run_before_init st evs :
  initPending st = true → isRedisAvailable st = false →
  Forall beforeInit evs →
  initPending (run st evs) = true ∧ isRedisAvailable (run st evs) = false.
Proof.
  revert st. induction evs as [|ev evs IH]; intros st Hpending Hoff Hevs; [done|].
  apply Forall_cons in Hevs as [Hev Hevs]. simpl. apply IH; [| |done].
  - destruct ev as [o|now now' pd uid t|jobId|k|k o|job|q']; simpl; try done.
    + unfold schedulePost. by repeat case_match.
    + unfold cancelScheduledPost. by repeat case_match.
    + unfold timerFires. by case_match.
    + unfold createPostSettles. by case_match.
    + by case_match.
  - destruct ev as [o|now now' pd uid t|jobId|k|k o|job|q']; simpl; try done.
    + unfold schedulePost. by repeat case_match.
    + unfold cancelScheduledPost. by repeat case_match.
    + unfold timerFires. by case_match.
    + unfold createPostSettles. by case_match.
    + by case_match.
Qed.

(** X19: in a run from module load, the durable backend is in use exactly
    when [initializeQueue] has resumed with the probe answered, the queue
    constructed and its processor registered; until then, and after any
    other outcome, also when the queue object exists but [process] threw,
    every operation takes the fallback branch. *)
Theorem X19_backend_decided_at_startup (before after : list (Event Q))
    (o : InitOutcome Q) :
  Forall beforeInit before →
  durable (run initial before) = None
  ∧ (is_Some (durable (run initial (before ++ EvInit o :: after)))
     ↔ ∃ q, o = QueueReady q).
Proof.
  intros Hbefore.
  destruct (run_before_init initial before eq_refl eq_refl Hbefore)
    as [Hpending Hoff].
  split; [unfold durable; by rewrite Hoff|].
  unfold run. rewrite foldl_app. simpl. fold (run initial before).
  rewrite Hpending.
  fold (run (initializeQueue (run initial before) o) after).
  destruct (run_backend (initializeQueue (run initial before) o) after)
    as [_ ->]; [by destruct o|].
  unfold durable. destruct o; simpl; split; try done.
  - by intros [? [=]].
  - by eauto.
  - by intros [? [=]].
  - by intros [? [=]].
Qed.

End Durable.

Lemma X18_witness :
  ∃ jobs job,
    Bull.getJobs (Q := ListQueue.t)
      [("delayed",
        Bull.mkJob "scheduled-post-7-1001" (mkPostData "hello") 7
          (Finite 5000) None 0)]
      ["delayed"; "waiting"]
    = Returns jobs
    ∧ job ∈ jobs
    ∧ Bull.data_userId job = 7%Z
    ∧ "scheduled-post-7-1001" = Bull.id job
    ∧ (Bull.processedOn job = None → InvalidDate = InvalidDate)
    ∧ (Scheduled = Scheduled ↔ gt (Bull.opts_delay job) (Finite 0) = true)
    ∧ (Scheduled = Processing ↔ gt (Bull.opts_delay job) (Finite 0) = false).
Proof.
  apply (X18_durable_listing_view
           (run (initial (Q := ListQueue.t))
              [EvInit (QueueReady []);
               EvSchedule 1000 1001 (mkPostData "hello") 7 (ValidDate 6000)])
           [("delayed",
             Bull.mkJob "scheduled-post-7-1001" (mkPostData "hello") 7
               (Finite 5000) None 0)]
           7
           [mkJobView "scheduled-post-7-1001" (mkPostData "hello") InvalidDate
              Scheduled (ValidDate 0)]
           (mkJobView "scheduled-post-7-1001" (mkPostData "hello") InvalidDate
              Scheduled (ValidDate 0))).
  - by vm_compute.
  - by vm_compute.
  - apply list_elem_of_here.
Defined.

Lemma X19_witness :
  Forall beforeInit
    [EvSchedule (Q := ListQueue.t) 1000 1001 (mkPostData "hello") 7
       (ValidDate 6000)]
  ∧ is_Some
      (durable
         (run initial
            ([EvSchedule (Q := ListQueue.t) 1000 1001 (mkPostData "hello") 7
                (ValidDate 6000)]
             ++ EvInit (QueueReady []) :: []))).
Proof.
  assert (Hbefore : Forall beforeInit
            [EvSchedule (Q := ListQueue.t) 1000 1001 (mkPostData "hello") 7
               (ValidDate 6000)]) by (repeat constructor).
  split; [exact Hbefore|].
  apply (X19_backend_decided_at_startup _ [] (QueueReady []) Hbefore).
  by eexists.
Defined.
